(** * Sea-frontend: the search / request / render lifecycle of [App]

    A shallow embedding of [App] (the React component of the repository) and
    of its asynchronous handler [handleSearch]:

    - JavaScript strings are sequences of UTF-16 code units ([jsstring]);
      the built-ins the component calls ([String.prototype.trim],
      [encodeURIComponent], [Array.prototype.slice], [split('\n')[0]]) are
      written out after their ECMAScript definitions;
    - the five [useState] cells are the record [View];
    - an [async] function is a term of the free monad [Async]: state
      setters are synchronous actions, every [await] is a suspension point
      whose continuation receives the settlement of the awaited promise,
      [throw] and [try / catch / finally] are the monad's exceptions;
    - [run] executes one call of [handleSearch] on its own, [step] is the
      browser's event loop, in which several calls may be in flight and
      their continuations interleave. *)

From Stdlib Require Import ZArith List Bool String Ascii Lia.
Import ListNotations.

#[local] Open Scope Z_scope.

(** ** JavaScript strings *)

(** A string value is a finite sequence of 16-bit code units. *)
Definition jsstring : Type := list Z.

(** String literals of the source, all of them ASCII. *)
Definition js (s : string) : jsstring :=
  map (fun a => Z.of_N (N_of_ascii a)) (list_ascii_of_string s).

(** [ToBoolean] on a string: the empty string is the only falsy one. *)
Definition truthy (s : jsstring) : bool :=
  match s with
  | [] => false
  | _ :: _ => true
  end.

(** [===] on two strings. *)
Fixpoint strictEq (s t : jsstring) : bool :=
  match s, t with
  | [], [] => true
  | c :: s', d :: t' => (c =? d) && strictEq s' t'
  | _, _ => false
  end.

(** ECMAScript [WhiteSpace] and [LineTerminator] code points, the ones
    [trim] strips. They all lie in the Basic Multilingual Plane. *)
Definition isWhiteSpace (c : Z) : bool :=
  (c =? 0x0009) || (c =? 0x000A) || (c =? 0x000B) || (c =? 0x000C) ||
  (c =? 0x000D) || (c =? 0x0020) || (c =? 0x00A0) || (c =? 0x1680) ||
  ((0x2000 <=? c) && (c <=? 0x200A)) ||
  (c =? 0x2028) || (c =? 0x2029) || (c =? 0x202F) || (c =? 0x205F) ||
  (c =? 0x3000) || (c =? 0xFEFF).

Fixpoint trimStart (s : jsstring) : jsstring :=
  match s with
  | [] => []
  | c :: s' => if isWhiteSpace c then trimStart s' else s
  end.

Definition trimEnd (s : jsstring) : jsstring :=
  rev (trimStart (rev s)).

(** [String.prototype.trim]. *)
Definition trim (s : jsstring) : jsstring :=
  trimEnd (trimStart s).

(** ** [encodeURIComponent] *)

Definition isHighSurrogate (c : Z) : bool := (0xD800 <=? c) && (c <=? 0xDBFF).
Definition isLowSurrogate (c : Z) : bool := (0xDC00 <=? c) && (c <=? 0xDFFF).

(** The characters [encodeURIComponent] leaves alone: ASCII letters, decimal
    digits and the marks [- _ . ! ~ * ' ( )]. *)
Definition uriUnreserved (c : Z) : bool :=
  ((0x41 <=? c) && (c <=? 0x5A)) ||      (* A-Z *)
  ((0x61 <=? c) && (c <=? 0x7A)) ||      (* a-z *)
  ((0x30 <=? c) && (c <=? 0x39)) ||      (* 0-9 *)
  (c =? 0x2D) || (c =? 0x5F) || (c =? 0x2E) || (c =? 0x21) || (c =? 0x7E) ||
  (c =? 0x2A) || (c =? 0x27) || (c =? 0x28) || (c =? 0x29).

(** One upper-case hexadecimal digit, as a code unit. *)
Definition hexDigit (n : Z) : Z :=
  if n <? 10 then 0x30 + n else 0x41 + (n - 10).

(** [%XY] for one octet. *)
Definition percentOctet (b : Z) : jsstring :=
  [0x25; hexDigit (Z.shiftr b 4); hexDigit (Z.land b 0xF)].

(** The UTF-8 octets of a code point. *)
Definition utf8 (cp : Z) : list Z :=
  if cp <? 0x80 then [cp]
  else if cp <? 0x800 then
    [Z.lor 0xC0 (Z.shiftr cp 6); Z.lor 0x80 (Z.land cp 0x3F)]
  else if cp <? 0x10000 then
    [Z.lor 0xE0 (Z.shiftr cp 12);
     Z.lor 0x80 (Z.land (Z.shiftr cp 6) 0x3F);
     Z.lor 0x80 (Z.land cp 0x3F)]
  else
    [Z.lor 0xF0 (Z.shiftr cp 18);
     Z.lor 0x80 (Z.land (Z.shiftr cp 12) 0x3F);
     Z.lor 0x80 (Z.land (Z.shiftr cp 6) 0x3F);
     Z.lor 0x80 (Z.land cp 0x3F)].

Definition percentEncode (cp : Z) : jsstring :=
  flat_map percentOctet (utf8 cp).

(** The code point of a surrogate pair. *)
Definition pairCodePoint (hi lo : Z) : Z :=
  (hi - 0xD800) * 0x400 + (lo - 0xDC00) + 0x10000.

(** The abstract operation [Encode] with the unreserved set above. [None]
    stands for the [URIError] it throws at an unpaired surrogate. *)
Fixpoint encodeURIComponent (s : jsstring) : option jsstring :=
  match s with
  | [] => Some []
  | c :: s' =>
      if uriUnreserved c then option_map (cons c) (encodeURIComponent s')
      else if isLowSurrogate c then None
      else if isHighSurrogate c then
        match s' with
        | d :: s'' =>
            if isLowSurrogate d then
              option_map (app (percentEncode (pairCodePoint c d)))
                         (encodeURIComponent s'')
            else None
        | [] => None
        end
      else option_map (app (percentEncode c)) (encodeURIComponent s')
  end.

(** [String.prototype.isWellFormed]: no unpaired surrogate. *)
Fixpoint isWellFormed (s : jsstring) : bool :=
  match s with
  | [] => true
  | c :: s' =>
      if isLowSurrogate c then false
      else if isHighSurrogate c then
        match s' with
        | d :: s'' => isLowSurrogate d && isWellFormed s''
        | [] => false
        end
      else isWellFormed s'
  end.

(** A code unit is a 16-bit value. *)
Definition isUnit (c : Z) : bool := (0 <=? c) && (c <? 0x10000).

(** What an escaped component is made of: unreserved characters and [%]
    (the hexadecimal digits are unreserved). *)
Definition uriSafe (c : Z) : bool := uriUnreserved c || (c =? 0x25).

(** [Array.prototype.slice(start, end)]: relative indices are clamped to
    the array, negative ones count from its end. *)
Definition slice {A : Type} (start end_ : Z) (l : list A) : list A :=
  let len := Z.of_nat (List.length l) in
  let k := if start <? 0 then Z.max (len + start) 0 else Z.min start len in
  let final := if end_ <? 0 then Z.max (len + end_) 0 else Z.min end_ len in
  firstn (Z.to_nat (final - k)) (skipn (Z.to_nat k) l).

(** [s.split('\n')[0]]: the text before the first line feed. *)
Fixpoint firstLine (s : jsstring) : jsstring :=
  match s with
  | [] => []
  | c :: s' => if c =? 0x0A then [] else c :: firstLine s'
  end.

(** ** The data model of the component *)

(** The response types declared at the top of the component. *)
Record Article : Type := mkArticle {
  title : jsstring;
  url : jsstring;
  text : jsstring;
  gemini_summary : jsstring
}.

Record Mentions : Type := mkMentions {
  positive : list jsstring;
  neutral : list jsstring;
  negative : list jsstring
}.

Record ApiResponse : Type := mkApiResponse {
  name : jsstring;
  articles : list Article;
  mentions : Mentions
}.

(** The five [useState] cells of [App]; [None] is [null]. *)
Record View : Type := mkView {
  searchQuery : jsstring;
  isLoading : bool;
  data : option ApiResponse;
  error : option jsstring;
  loadingPhase : jsstring
}.

(** The initial values given to [useState]. *)
Definition initialView : View :=
  {| searchQuery := []; isLoading := false; data := None; error := None;
     loadingPhase := [] |}.

(** A call of one of the five setters. *)
Inductive Update : Type :=
| SetSearchQuery (s : jsstring)
| SetIsLoading (b : bool)
| SetData (d : option ApiResponse)
| SetError (e : option jsstring)
| SetLoadingPhase (p : jsstring).

Definition applyUpdate (u : Update) (v : View) : View :=
  match u with
  | SetSearchQuery s =>
      {| searchQuery := s; isLoading := isLoading v; data := data v;
         error := error v; loadingPhase := loadingPhase v |}
  | SetIsLoading b =>
      {| searchQuery := searchQuery v; isLoading := b; data := data v;
         error := error v; loadingPhase := loadingPhase v |}
  | SetData d =>
      {| searchQuery := searchQuery v; isLoading := isLoading v; data := d;
         error := error v; loadingPhase := loadingPhase v |}
  | SetError e =>
      {| searchQuery := searchQuery v; isLoading := isLoading v; data := data v;
         error := e; loadingPhase := loadingPhase v |}
  | SetLoadingPhase p =>
      {| searchQuery := searchQuery v; isLoading := isLoading v; data := data v;
         error := error v; loadingPhase := p |}
  end.

(** The request state of the specification, read off the three flags the
    code keeps: the code has no such variable of its own. *)
Inductive RequestState : Type := idle | loading | success | failed.

Definition requestState (v : View) : RequestState :=
  if isLoading v then loading
  else match error v, data v with
       | Some _, _ => failed
       | None, Some _ => success
       | None, None => idle
       end.

(** ** Promises, exceptions and the host *)

(** What a [catch] clause can receive: an [Error] instance with its
    [message], or any other value. *)
Inductive Thrown : Type :=
| JsError (message : jsstring)
| NotAnError.

(** The settlement of a promise. *)
Inductive Settled (A : Type) : Type :=
| Fulfilled (a : A)
| Rejected (e : Thrown).
Arguments Fulfilled {A} a.
Arguments Rejected {A} e.

(** A [Response]: its status and the settlement of its [json()] promise
    (the decoded body, or the rejection of an undecodable one). *)
Record Response : Type := mkResponse {
  status : Z;
  json : Settled (option ApiResponse)
}.

(** [Response.ok]: the status is in the range 200-299. *)
Definition ok (r : Response) : bool :=
  (200 <=? status r) && (status r <=? 299).

(** What the browser decides and the source does not: the message of the
    [URIError] of [encodeURIComponent] and the [URL] parser behind
    [new URL(u).hostname] ([None] when the constructor throws). *)
Record Host : Type := mkHost {
  uriErrorMessage : jsstring;
  hostname : jsstring -> option jsstring
}.

(** ** Asynchronous functions *)

(** The body of an [async] function: it returns, throws, calls a state
    setter, or awaits a timer, a [fetch] or a [json()] promise. *)
Inductive Async (A : Type) : Type :=
| Ret (a : A)
| Throw (e : Thrown)
| Do (u : Update) (k : Async A)
| AwaitTimeout (ms : Z) (k : Async A)
| AwaitFetch (input : jsstring) (k : Settled Response -> Async A)
| AwaitJson (r : Response) (k : Settled (option ApiResponse) -> Async A).
Arguments Ret {A} a.
Arguments Throw {A} e.
Arguments Do {A} u k.
Arguments AwaitTimeout {A} ms k.
Arguments AwaitFetch {A} input k.
Arguments AwaitJson {A} r k.

Fixpoint bind {A B : Type} (p : Async A) (f : A -> Async B) : Async B :=
  match p with
  | Ret a => f a
  | Throw e => Throw e
  | Do u k => Do u (bind k f)
  | AwaitTimeout ms k => AwaitTimeout ms (bind k f)
  | AwaitFetch input k => AwaitFetch input (fun o => bind (k o) f)
  | AwaitJson r k => AwaitJson r (fun o => bind (k o) f)
  end.

Declare Scope async_scope.
Delimit Scope async_scope with async.
Notation "x <- p ;; q" := (bind p (fun x => q))
  (at level 61, p at next level, right associativity) : async_scope.
Notation "p ;; q" := (bind p (fun _ => q))
  (at level 61, right associativity) : async_scope.
#[local] Open Scope async_scope.

(** [try { p } catch (err) { handler err }]. *)
Fixpoint tryCatch {A : Type} (p : Async A) (handler : Thrown -> Async A)
  : Async A :=
  match p with
  | Ret a => Ret a
  | Throw e => handler e
  | Do u k => Do u (tryCatch k handler)
  | AwaitTimeout ms k => AwaitTimeout ms (tryCatch k handler)
  | AwaitFetch input k => AwaitFetch input (fun o => tryCatch (k o) handler)
  | AwaitJson r k => AwaitJson r (fun o => tryCatch (k o) handler)
  end.

(** [try { p } finally { cleanup }]: the cleanup runs on both exits and the
    completion of [p] is kept, unless the cleanup throws itself. *)
Fixpoint tryFinally {A : Type} (p : Async A) (cleanup : Async unit)
  : Async A :=
  match p with
  | Ret a => cleanup ;; Ret a
  | Throw e => cleanup ;; Throw e
  | Do u k => Do u (tryFinally k cleanup)
  | AwaitTimeout ms k => AwaitTimeout ms (tryFinally k cleanup)
  | AwaitFetch input k => AwaitFetch input (fun o => tryFinally (k o) cleanup)
  | AwaitJson r k => AwaitJson r (fun o => tryFinally (k o) cleanup)
  end.

Definition tryCatchFinally {A : Type} (p : Async A)
    (handler : Thrown -> Async A) (cleanup : Async unit) : Async A :=
  tryFinally (tryCatch p handler) cleanup.

(** [await] of a settled promise: the value, or a throw of the reason. *)
Definition settle {A : Type} (o : Settled A) : Async A :=
  match o with
  | Fulfilled a => Ret a
  | Rejected e => Throw e
  end.

Definition setSearchQuery (s : jsstring) : Async unit := Do (SetSearchQuery s) (Ret tt).
Definition setIsLoading (b : bool) : Async unit := Do (SetIsLoading b) (Ret tt).
Definition setData (d : option ApiResponse) : Async unit := Do (SetData d) (Ret tt).
Definition setError (e : option jsstring) : Async unit := Do (SetError e) (Ret tt).
Definition setLoadingPhase (p : jsstring) : Async unit := Do (SetLoadingPhase p) (Ret tt).

(** [await new Promise(resolve => setTimeout(resolve, ms))]. *)
Definition sleep (ms : Z) : Async unit := AwaitTimeout ms (Ret tt).

(** [await fetch(input)], with the default method GET. *)
Definition fetch (input : jsstring) : Async Response := AwaitFetch input settle.

(** [await response.json()]. *)
Definition awaitJson (r : Response) : Async (option ApiResponse) :=
  AwaitJson r settle.

(** ** [handleSearch] *)

Definition phaseSearching : jsstring := js "Searching social platforms...".
Definition phaseScraping : jsstring := js "Scraping and parsing results...".
Definition phaseAnalyzing : jsstring :=
  js "Analyzing sentiment and synthesizing data...".

Definition notOkMessage : jsstring := js "Network response was not ok".
Definition unknownErrorMessage : jsstring := js "An unknown error occurred".

(** The template literal [`/api/scrape?topic=${topic}`]. *)
Definition scrapeUrl (topic : jsstring) : jsstring :=
  js "/api/scrape?topic=" ++ topic.

(** The argument of [fetch]: [encodeURIComponent] throws a [URIError]
    before any request is made when the query has an unpaired surrogate. *)
Definition encodeTopic (h : Host) (q : jsstring) : Async jsstring :=
  match encodeURIComponent q with
  | Some topic => Ret topic
  | None => Throw (JsError (uriErrorMessage h))
  end.

(** [err instanceof Error ? err.message : 'An unknown error occurred']. *)
Definition errorText (err : Thrown) : jsstring :=
  match err with
  | JsError message => message
  | NotAnError => unknownErrorMessage
  end.

(** The body of the [try] block. *)
Definition searchBody (h : Host) (q : jsstring) : Async unit :=
  setLoadingPhase phaseSearching ;;
  sleep 1500 ;;
  setLoadingPhase phaseScraping ;;
  sleep 2000 ;;
  setLoadingPhase phaseAnalyzing ;;
  topic <- encodeTopic h q ;;
  response <- fetch (scrapeUrl topic) ;;
  (if negb (ok response) then Throw (JsError notOkMessage) else Ret tt) ;;
  result <- awaitJson response ;;
  setData result.

(** [handleSearch], closed over the [searchQuery] of the render that
    installed it. *)
Definition handleSearch (h : Host) (q : jsstring) : Async unit :=
  if negb (truthy (trim q)) then Ret tt
  else
    setIsLoading true ;;
    setData None ;;
    setError None ;;
    tryCatchFinally
      (searchBody h q)
      (fun err => setError (Some (errorText err)))
      (setIsLoading false ;; setLoadingPhase []).

(** ** One call on its own *)

(** What a call does that can be seen from outside. *)
Inductive Event : Type :=
| Updated (u : Update)
| TimerSet (ms : Z)
| Requested (method input : jsstring)
| BodyRead.

(** [fetch] with no [init] argument sends a GET. *)
Definition GET : jsstring := js "GET".

(** The events of a call, each with the view right after it, the view at
    the end and the completion of the function. *)
Record Run (A : Type) : Type := mkRun {
  trace : list (Event * View);
  final : View;
  completion : Thrown + A
}.
Arguments mkRun {A} trace final completion.
Arguments trace {A} r.
Arguments final {A} r.
Arguments completion {A} r.

Definition after {A : Type} (ev : Event) (v : View) (r : Run A) : Run A :=
  {| trace := (ev, v) :: trace r; final := final r;
     completion := completion r |}.

(** [run net p v]: the call [p] from the view [v], with nothing else
    happening in between; [net] settles the requests. Timers always fire
    and a body settles as its response says, so every call ends. *)
Fixpoint run {A : Type} (net : jsstring -> Settled Response) (p : Async A)
    (v : View) : Run A :=
  match p with
  | Ret a => {| trace := []; final := v; completion := inr a |}
  | Throw e => {| trace := []; final := v; completion := inl e |}
  | Do u k => after (Updated u) (applyUpdate u v) (run net k (applyUpdate u v))
  | AwaitTimeout ms k => after (TimerSet ms) v (run net k v)
  | AwaitFetch input k => after (Requested GET input) v (run net (k (net input)) v)
  | AwaitJson r k => after BodyRead v (run net (k (json r)) v)
  end.

Definition events {A : Type} (r : Run A) : list Event := map fst (trace r).

Definition isRequest (ev : Event) : bool :=
  match ev with Requested _ _ => true | _ => false end.

Definition isTimer (ev : Event) : bool :=
  match ev with TimerSet _ => true | _ => false end.

Definition isPhase (ev : Event) : bool :=
  match ev with Updated (SetLoadingPhase (_ :: _)) => true | _ => false end.

Definition touchesQuery (ev : Event) : bool :=
  match ev with Updated (SetSearchQuery _) => true | _ => false end.

(** The requests a call issued, in order. *)
Definition requests {A : Type} (r : Run A) : list Event :=
  filter isRequest (events r).

(** Whether every non-empty loading label is directly followed by a timer. *)
Fixpoint pausesAfterEachPhase (evs : list Event) : bool :=
  match evs with
  | [] => true
  | ev :: rest =>
      (if isPhase ev
       then match rest with
            | next :: _ => isTimer next
            | [] => false
            end
       else true) && pausesAfterEachPhase rest
  end.

(** The views a sequence of events goes through from [v]: only the state
    setters change the view. *)
Fixpoint stamp (v : View) (evs : list Event) : list (Event * View) :=
  match evs with
  | [] => []
  | Updated u :: rest => (Updated u, applyUpdate u v) :: stamp (applyUpdate u v) rest
  | ev :: rest => (ev, v) :: stamp v rest
  end.

(** At most one of [data] and [error] is not [null]. *)
Definition exclusive (v : View) : bool :=
  match data v, error v with
  | Some _, Some _ => false
  | _, _ => true
  end.

(** Whether an event stores a result in [data]. *)
Definition storesData (ev : Event) : bool :=
  match ev with Updated (SetData (Some _)) => true | _ => false end.

(** The body a query gets decoded, if it does: the query can be escaped,
    the request is fulfilled, its status is ok and its body decodes. *)
Definition decoded (net : jsstring -> Settled Response) (q : jsstring)
  : option (option ApiResponse) :=
  match encodeURIComponent q with
  | Some topic =>
      match net (scrapeUrl topic) with
      | Fulfilled resp =>
          if ok resp
          then match json resp with
               | Fulfilled d => Some d
               | Rejected _ => None
               end
          else None
      | Rejected _ => None
      end
  | None => None
  end.

(** ** The event loop *)

(** The page: the view, the calls suspended at an [await], and the events
    so far. *)
Record World : Type := mkWorld {
  view : View;
  tasks : list (Async unit);
  log : list (Event * View)
}.

Definition initialWorld : World :=
  {| view := initialView; tasks := []; log := [] |}.

(** Run a call up to its next [await]: the events, the view, and the
    suspended rest ([None] when the call is over). *)
Fixpoint advance (p : Async unit) (v : View)
  : list (Event * View) * View * option (Async unit) :=
  match p with
  | Ret _ => ([], v, None)
  | Throw _ => ([], v, None)
  | Do u k =>
      let '(evs, v', t) := advance k (applyUpdate u v) in
      ((Updated u, applyUpdate u v) :: evs, v', t)
  | AwaitTimeout ms _ => ([(TimerSet ms, v)], v, Some p)
  | AwaitFetch input _ => ([(Requested GET input, v)], v, Some p)
  | AwaitJson _ _ => ([(BodyRead, v)], v, Some p)
  end.

(** What wakes a suspended call up. *)
Inductive Settlement : Type :=
| TimerFired
| FetchSettled (o : Settled Response)
| BodySettled.

Definition resume (p : Async unit) (s : Settlement) : option (Async unit) :=
  match p, s with
  | AwaitTimeout _ k, TimerFired => Some k
  | AwaitFetch _ k, FetchSettled o => Some (k o)
  | AwaitJson r k, BodySettled => Some (k (json r))
  | _, _ => None
  end.

Definition optionToList {A : Type} (o : option A) : list A :=
  match o with
  | Some a => [a]
  | None => []
  end.

(** What the user does to the two controls. *)
Inductive UiEvent : Type :=
| Change (value : jsstring)
| Click
| KeyPress (key : jsstring).

Inductive Input : Type :=
| Ui (e : UiEvent)
| Settle (i : nat) (s : Settlement).

(** A call starts: it runs to its first [await] and joins the suspended
    calls. *)
Definition start (p : Async unit) (w : World) : World :=
  let '(evs, v', t) := advance p (view w) in
  {| view := v'; tasks := tasks w ++ optionToList t; log := log w ++ evs |}.

(** [handleSearch()] is called, with the query of the current render. *)
Definition spawn (h : Host) (w : World) : World :=
  start (handleSearch h (searchQuery (view w))) w.

(** One turn of the event loop.
    - [onChange] of the input stores the typed value;
    - [onClick] of the button calls [handleSearch], and a button with
      [disabled={isLoading}] dispatches no click while loading;
    - [onKeyPress] of the input calls [handleSearch] on Enter;
    - a settlement wakes the [i]-th suspended call, which runs to its next
      [await] and keeps its place. *)
Definition step (h : Host) (w : World) (i : Input) : World :=
  match i with
  | Ui (Change value) =>
      {| view := applyUpdate (SetSearchQuery value) (view w);
         tasks := tasks w;
         log := log w ++ [(Updated (SetSearchQuery value),
                           applyUpdate (SetSearchQuery value) (view w))] |}
  | Ui Click => if isLoading (view w) then w else spawn h w
  | Ui (KeyPress key) => if strictEq key (js "Enter") then spawn h w else w
  | Settle n s =>
      match nth_error (tasks w) n with
      | None => w
      | Some p =>
          match resume p s with
          | None => w
          | Some p' =>
              let '(evs, v', t) := advance p' (view w) in
              {| view := v';
                 tasks := firstn n (tasks w) ++ optionToList t
                          ++ skipn (S n) (tasks w);
                 log := log w ++ evs |}
          end
      end
  end.

Definition steps (h : Host) (w : World) (l : list Input) : World :=
  fold_left (step h) l w.

(** The settlements a call alone on the page receives, in order. *)
Fixpoint schedule (net : jsstring -> Settled Response) (p : Async unit)
  : list Input :=
  match p with
  | Ret _ => []
  | Throw _ => []
  | Do _ k => schedule net k
  | AwaitTimeout _ k => Settle 0 TimerFired :: schedule net k
  | AwaitFetch input k =>
      Settle 0 (FetchSettled (net input)) :: schedule net (k (net input))
  | AwaitJson r k => Settle 0 BodySettled :: schedule net (k (json r))
  end.

(** The number of calls that set [isLoading] to [true] while it already
    was: a view in the log is the one after the event, so the one before
    is the view of the previous entry. *)
Fixpoint reloads (before : View) (l : list (Event * View)) : nat :=
  match l with
  | [] => 0%nat
  | (ev, v) :: rest =>
      ((match ev with
        | Updated (SetIsLoading true) => if isLoading before then 1 else 0
        | _ => 0
        end) + reloads v rest)%nat
  end.

(** The view after a list of events, [v] if there is none. *)
Definition lastView (v : View) (l : list (Event * View)) : View :=
  last (map snd l) v.

(** [quiet b p]: from a view whose [isLoading] is [b], the call [p] sets
    [isLoading] to [true] only when it is [false], is loading at each of
    its [await]s, and is not loading when it ends. *)
Fixpoint quiet (loadingNow : bool) (p : Async unit) : Prop :=
  match p with
  | Ret _ => loadingNow = false
  | Throw _ => loadingNow = false
  | Do (SetIsLoading b) k => (b = true -> loadingNow = false) /\ quiet b k
  | Do _ k => quiet loadingNow k
  | AwaitTimeout _ k => loadingNow = true /\ quiet true k
  | AwaitFetch _ k => loadingNow = true /\ forall o, quiet true (k o)
  | AwaitJson _ k => loadingNow = true /\ forall o, quiet true (k o)
  end.

(** Whether an input is Enter pressed in the text field. *)
Definition pressesEnter (i : Input) : bool :=
  match i with
  | Ui (KeyPress key) => strictEq key (js "Enter")
  | _ => false
  end.

(** The pages on which calls never overlapped: no call began while the
    view was loading, the log ends at the view, and the page is loading
    exactly while its one call is suspended. *)
Definition calm (w : World) : Prop :=
  reloads initialView (log w) = 0%nat /\
  lastView initialView (log w) = view w /\
  match tasks w with
  | [] => isLoading (view w) = false
  | [t] => isLoading (view w) = true /\ quiet true t
  | _ :: _ :: _ => False
  end.

(** ** Rendering *)

(** A row of the chart's data. *)
Record Bar : Type := mkBar {
  barName : jsstring;
  count : nat;
  fill : jsstring
}.

Definition sentimentData (data : option ApiResponse) : list Bar :=
  match data with
  | Some d =>
      [ {| barName := js "Positive";
           count := List.length (positive (mentions d));
           fill := js "#4ade80" |};
        {| barName := js "Neutral";
           count := List.length (neutral (mentions d));
           fill := js "#94a3b8" |};
        {| barName := js "Negative";
           count := List.length (negative (mentions d));
           fill := js "#f87171" |} ]
  | None => []
  end.

(** One card of the source list. *)
Record ArticleCard : Type := mkArticleCard {
  cardHref : jsstring;
  cardTitle : jsstring;
  cardBadge : nat;
  cardSummary : jsstring;
  cardHost : jsstring
}.

(** [data.articles.map((article, index) => ...)]; [new URL(article.url)]
    throws at a string that is no URL, and the render with it. *)
Fixpoint articleCards (h : Host) (index : nat) (l : list Article)
  : option (list ArticleCard) :=
  match l with
  | [] => Some []
  | article :: rest =>
      match hostname h (url article), articleCards h (S index) rest with
      | Some host, Some cards =>
          Some ({| cardHref := url article;
                   cardTitle := title article;
                   cardBadge := index + 1;
                   cardSummary := firstLine (gemini_summary article);
                   cardHost := host |} :: cards)
      | _, _ => None
      end
  end.

(** The results section, shown when [data] is set. *)
Record Results : Type := mkResults {
  headingName : jsstring;
  sourcesAnalyzed : nat;
  positiveCount : nat;
  neutralCount : nat;
  negativeCount : nat;
  chartData : list Bar;
  cards : list ArticleCard;
  positiveQuotes : list jsstring;
  neutralQuotes : list jsstring;
  negativeQuotes : list jsstring
}.

Definition resultsSection (h : Host) (d : ApiResponse) : option Results :=
  match articleCards h 0 (articles d) with
  | Some cs =>
      Some {| headingName := name d;
              sourcesAnalyzed := List.length (articles d);
              positiveCount := List.length (positive (mentions d));
              neutralCount := List.length (neutral (mentions d));
              negativeCount := List.length (negative (mentions d));
              chartData := sentimentData (Some d);
              cards := cs;
              positiveQuotes := slice 1 10 (positive (mentions d));
              neutralQuotes := slice 1 10 (neutral (mentions d));
              negativeQuotes := slice 1 10 (negative (mentions d)) |}
  | None => None
  end.

(** What [App] returns for a view. *)
Record Screen : Type := mkScreen {
  heroCompact : bool;
  inputValue : jsstring;
  buttonDisabled : bool;
  loadingPanel : option jsstring;
  errorPanel : option jsstring;
  results : option Results
}.

Definition isSome {A : Type} (o : option A) : bool :=
  match o with Some _ => true | None => false end.

(** [App]: [None] when rendering throws. *)
Definition App (h : Host) (v : View) : option Screen :=
  let screen (r : option Results) :=
    {| heroCompact := isSome (data v) || isLoading v;
       inputValue := searchQuery v;
       buttonDisabled := isLoading v;
       loadingPanel := if isLoading v then Some (loadingPhase v) else None;
       errorPanel := match error v with
                     | Some (c :: e) => Some (c :: e)
                     | _ => None
                     end;
       results := r |} in
  match data v with
  | None => Some (screen None)
  | Some d =>
      match resultsSection h d with
      | Some r => Some (screen (Some r))
      | None => None
      end
  end.

(** ** What is on the screen around a call *)

(** The events at which a call is suspended: the page is rendered and the
    user can act before the call goes on. *)
Definition isAwait (ev : Event) : bool :=
  match ev with
  | TimerSet _ => true
  | Requested _ _ => true
  | BodyRead => true
  | Updated _ => false
  end.

(** The screen while a search is loading: the hero is small, the button
    is disabled, the spinner shows a label, and nothing else is shown. *)
Definition waitingScreen (query label : jsstring) : Screen :=
  {| heroCompact := true;
     inputValue := query;
     buttonDisabled := true;
     loadingPanel := Some label;
     errorPanel := None;
     results := None |}.

(** The screen when no search is loading: the hero is small only over
    results, the button is enabled and there is no spinner. *)
Definition restingScreen (query : jsstring) (message : option jsstring)
    (r : option Results) : Screen :=
  {| heroCompact := isSome r;
     inputValue := query;
     buttonDisabled := false;
     loadingPanel := None;
     errorPanel := message;
     results := r |}.

(** The time the timers set before the first request add up to, in
    milliseconds; [None] when no request is issued. *)
Fixpoint delayBeforeRequest (evs : list Event) : option Z :=
  match evs with
  | [] => None
  | Requested _ _ :: _ => Some 0
  | TimerSet ms :: rest => option_map (Z.add ms) (delayBeforeRequest rest)
  | _ :: rest => delayBeforeRequest rest
  end.

(** ** The development server *)

(** The [server.proxy] table of the Vite configuration. *)
Record ProxyOptions : Type := mkProxyOptions {
  target : jsstring;
  changeOrigin : bool;
  secure : bool
}.

Definition tunnel : jsstring := js "https://9q3qgm4c-8080.uks1.devtunnels.ms".

Definition proxy : list (jsstring * ProxyOptions) :=
  [ (js "/api",
     {| target := tunnel; changeOrigin := true; secure := false |}) ].

(** [s.startsWith(prefix)]. *)
Fixpoint startsWith (s prefix : jsstring) : bool :=
  match prefix, s with
  | [], _ => true
  | p :: prefix', c :: s' => (c =? p) && startsWith s' prefix'
  | _ :: _, [] => false
  end.

(** The rule of the development server for a table whose keys are plain
    prefixes, as the one key of this table is (a key that starts with [^]
    would be a regular expression): a request is handled by the first
    entry whose key its URL starts with. *)
Fixpoint route (table : list (jsstring * ProxyOptions)) (path : jsstring)
  : option ProxyOptions :=
  match table with
  | [] => None
  | (context, options) :: rest =>
      if startsWith path context then Some options else route rest path
  end.

(** Where a request goes: the target of its entry followed by the URL of
    the request, unchanged; [None] when the server answers itself. *)
Definition forward (path : jsstring) : option jsstring :=
  option_map (fun options => target options ++ path) (route proxy path).

(** ** Invariants of the calls in flight *)

(** [tidy off empty p]: the call [p] ends with [isLoading] false and the
    label empty. [off] and [empty] say whether they are so now; an [await]
    forgets both, since other calls run meanwhile. *)
Fixpoint tidy (off empty : bool) (p : Async unit) : Prop :=
  match p with
  | Ret _ => off = true /\ empty = true
  | Throw _ => off = true /\ empty = true
  | Do (SetIsLoading b) k => tidy (negb b) empty k
  | Do (SetLoadingPhase ph) k => tidy off (negb (truthy ph)) k
  | Do _ k => tidy off empty k
  | AwaitTimeout _ k => tidy false false k
  | AwaitFetch _ k => forall o, tidy false false (k o)
  | AwaitJson _ k => forall o, tidy false false (k o)
  end.

(** [sole d e p]: from a view where [data] is set iff [d] and [error] iff
    [e], the call [p] never has both set. *)
Fixpoint sole (dataSet errorSet : bool) (p : Async unit) : Prop :=
  match p with
  | Ret _ => True
  | Throw _ => True
  | Do (SetData d) k => isSome d && errorSet = false /\ sole (isSome d) errorSet k
  | Do (SetError e) k => dataSet && isSome e = false /\ sole dataSet (isSome e) k
  | Do _ k => sole dataSet errorSet k
  | AwaitTimeout _ k => sole dataSet errorSet k
  | AwaitFetch _ k => forall o, sole dataSet errorSet (k o)
  | AwaitJson _ k => forall o, sole dataSet errorSet (k o)
  end.

(** [sole] from the flags of a view. *)
Definition soleFrom (v : View) (p : Async unit) : Prop :=
  sole (isSome (data v)) (isSome (error v)) p.

Definition allExclusive (l : list (Event * View)) : bool :=
  forallb (fun ev_view => exclusive (snd ev_view)) l.

(** The pages on which [data] and [error] were never both set, and whose
    one call in flight will not set both. *)
Definition unmixed (w : World) : Prop :=
  allExclusive (log w) = true /\
  exclusive (view w) = true /\
  forall t, tasks w = [t] -> soleFrom (view w) t.

(** ** Sample values *)

(** A host as Chromium behaves: its [URIError] message, and a [URL] parser
    that accepts every string and answers with an empty host name. *)
Definition sampleHost : Host :=
  {| uriErrorMessage := js "URI malformed"; hostname := fun _ => Some [] |}.

Definition sampleData : ApiResponse :=
  {| name := js "a";
     articles := [];
     mentions := {| positive := [js "good"]; neutral := []; negative := [] |} |}.

Definition sampleArticle : Article :=
  {| title := js "A title";
     url := js "https://example.org/a";
     text := js "text";
     gemini_summary := [0x4F; 0x6E; 0x65; 0x0A; 0x54; 0x77; 0x6F] |}.

Definition sampleReport : ApiResponse :=
  {| name := js "a";
     articles := [sampleArticle];
     mentions := {| positive := []; neutral := []; negative := [] |} |}.

(** A host whose [URL] parser rejects every string. *)
Definition strictHost : Host :=
  {| uriErrorMessage := js "URI malformed"; hostname := fun _ => None |}.

Definition emptyData (n : jsstring) : ApiResponse :=
  {| name := n;
     articles := [];
     mentions := {| positive := []; neutral := []; negative := [] |} |}.

Definition okResponse (d : option ApiResponse) : Response :=
  {| status := 200; json := Fulfilled d |}.

(** A network on which every request fails at the transport. *)
Definition offline (message : jsstring) : jsstring -> Settled Response :=
  fun _ => Rejected (JsError message).

(** A network that answers every request with the same response. *)
Definition answering (r : Response) : jsstring -> Settled Response :=
  fun _ => Fulfilled r.

(** * Properties *)

(** ** Strings *)

Example encode_space_amp :
  encodeURIComponent (js "a b&c") = Some (js "a%20b%26c").
Proof. reflexivity. Qed.

Example encode_e_acute :
  encodeURIComponent [0xE9] = Some (js "%C3%A9").
Proof. reflexivity. Qed.

Example encode_emoji :
  encodeURIComponent [0xD83D; 0xDE00] = Some (js "%F0%9F%98%80").
Proof. reflexivity. Qed.

Example encode_lone_surrogate :
  encodeURIComponent [0x61; 0xD800; 0x62] = None.
Proof. reflexivity. Qed.

Example trim_example :
  trim (js "  a b  ") = js "a b".
Proof. reflexivity. Qed.

Example slice_example :
  slice 1 10 [0; 1; 2; 3; 4; 5; 6; 7; 8; 9; 10; 11] = [1; 2; 3; 4; 5; 6; 7; 8; 9].
Proof. reflexivity. Qed.

Lemma trimStart_blank (s : jsstring) :
  forallb isWhiteSpace s = true -> trimStart s = [].
Proof.
  induction s as [|c s IH]; simpl; [reflexivity|].
  intros H. apply andb_prop in H. destruct H as [Hc Hs].
  rewrite Hc. auto.
Qed.

Lemma trimStart_nil (s : jsstring) :
  trimStart s = [] -> forallb isWhiteSpace s = true.
Proof.
  induction s as [|c s IH]; simpl; [reflexivity|].
  destruct (isWhiteSpace c); simpl; [exact IH | discriminate].
Qed.

(** What [trimStart] leaves does not start with white space. *)
Lemma trimStart_head (s : jsstring) (c : Z) (t : jsstring) :
  trimStart s = c :: t -> isWhiteSpace c = false.
Proof.
  induction s as [|d s IH]; simpl; [discriminate|].
  destruct (isWhiteSpace d) eqn:Hd; [exact IH|].
  intros H. injection H as -> _. exact Hd.
Qed.

(** [trim] answers the empty string exactly on the strings made of white
    space only. *)
Lemma trim_nil_iff (s : jsstring) :
  trim s = [] <-> forallb isWhiteSpace s = true.
Proof.
  unfold trim, trimEnd. split.
  - intros H.
    assert (Hr : trimStart (rev (trimStart s)) = []).
    { rewrite <- (rev_involutive (trimStart (rev (trimStart s)))), H.
      reflexivity. }
    apply trimStart_nil in Hr.
    destruct (trimStart s) as [|c t] eqn:Hs.
    + apply trimStart_nil. exact Hs.
    + apply trimStart_head in Hs.
      rewrite forallb_forall in Hr.
      rewrite (Hr c) in Hs; [discriminate|].
      apply in_rev. rewrite rev_involutive. left. reflexivity.
  - intros H. rewrite (trimStart_blank s H). reflexivity.
Qed.

Lemma truthy_trim (q : jsstring) :
  trim q <> [] -> truthy (trim q) = true.
Proof. destruct (trim q); [congruence | reflexivity]. Qed.

(** ** One call of [handleSearch] *)

(** The literals stay folded while a call is evaluated. *)
Arguments phaseSearching : simpl never.
Arguments phaseScraping : simpl never.
Arguments phaseAnalyzing : simpl never.
Arguments notOkMessage : simpl never.
Arguments unknownErrorMessage : simpl never.
Arguments scrapeUrl : simpl never.
Arguments GET : simpl never.

(** Enter the body of [handleSearch] for a query that passes the guard. *)
Ltac enter_search Hq :=
  unfold handleSearch; rewrite (truthy_trim _ Hq); cbn [negb];
  unfold searchBody, encodeTopic.

(** Follow every branch of the [try] block: the query cannot be escaped,
    the request is rejected, the status is not ok, the body is rejected,
    the body is decoded. *)
Ltac search_cases h q net Hq :=
  enter_search Hq;
  let topic := fresh "topic" in
  let Henc := fresh "Henc" in
  let r := fresh "r" in
  let e := fresh "e" in
  let d := fresh "d" in
  let Hnet := fresh "Hnet" in
  let Hok := fresh "Hok" in
  let Hjson := fresh "Hjson" in
  destruct (encodeURIComponent q) as [topic|] eqn:Henc;
  [ cbn; destruct (net (scrapeUrl topic)) as [r|e] eqn:Hnet;
    [ cbn; destruct (ok r) eqn:Hok;
      [ cbn; destruct (json r) as [d|e] eqn:Hjson; cbn
      | cbn ]
    | cbn ]
  | cbn ].

(** The views of a trace are those its events produce, one after another. *)
Lemma trace_views {A : Type} (net : jsstring -> Settled Response)
    (p : Async A) (v : View) :
  trace (run net p v) = stamp v (events (run net p v)).
Proof.
  revert v. unfold events.
  induction p as [a|e|u k IH|ms k IH|input k IH|r k IH]; intros v; simpl;
    try reflexivity; f_equal; auto.
Qed.

Lemma last_cons_default {A : Type} (l : list A) (x d : A) :
  last (x :: l) d = last l x.
Proof.
  revert x d. induction l as [|y l IH]; intros x d; [reflexivity|].
  change (last (x :: y :: l) d) with (last (y :: l) d).
  rewrite (IH y d), (IH y x). reflexivity.
Qed.

(** The view a call leaves is the last view of its trace (or the view it
    started from, when it had no event). *)
Lemma final_last {A : Type} (net : jsstring -> Settled Response)
    (p : Async A) (v : View) :
  final (run net p v) = lastView v (trace (run net p v)).
Proof.
  revert v. unfold lastView.
  induction p as [a|e|u k IH|ms k IH|input k IH|r k IH]; intros v;
    try reflexivity;
    cbn [run after trace final map snd];
    rewrite last_cons_default; auto.
Qed.

(** A search that is answered, and one that is not. *)
Example answered_search :
  let r := run (answering (okResponse (Some sampleData)))
               (handleSearch sampleHost (js "a b")) initialView in
  events r
  = [ Updated (SetIsLoading true); Updated (SetData None);
      Updated (SetError None);
      Updated (SetLoadingPhase phaseSearching); TimerSet 1500;
      Updated (SetLoadingPhase phaseScraping); TimerSet 2000;
      Updated (SetLoadingPhase phaseAnalyzing);
      Requested GET (js "/api/scrape?topic=a%20b"); BodyRead;
      Updated (SetData (Some sampleData));
      Updated (SetIsLoading false); Updated (SetLoadingPhase []) ] /\
  final r = {| searchQuery := []; isLoading := false;
               data := Some sampleData; error := None; loadingPhase := [] |} /\
  requestState (final r) = success.
Proof. cbv zeta. repeat split. Qed.

Example unanswered_search :
  let r := run (offline (js "Failed to fetch"))
               (handleSearch sampleHost (js "a b")) initialView in
  events r
  = [ Updated (SetIsLoading true); Updated (SetData None);
      Updated (SetError None);
      Updated (SetLoadingPhase phaseSearching); TimerSet 1500;
      Updated (SetLoadingPhase phaseScraping); TimerSet 2000;
      Updated (SetLoadingPhase phaseAnalyzing);
      Requested GET (js "/api/scrape?topic=a%20b");
      Updated (SetError (Some (js "Failed to fetch")));
      Updated (SetIsLoading false); Updated (SetLoadingPhase []) ] /\
  requestState (final r) = failed.
Proof. cbv zeta. repeat split. Qed.

(** C1: for every query that is empty or made of white space only,
    [handleSearch] is the function that returns at once: called alone it
    has no event (no state setter, no timer, no request) and leaves the
    view as it was, and on the page neither Enter nor the button changes
    the world: not the view, not the suspended calls, not the log. *)
Theorem blank_query_is_noop (h : Host) (q : jsstring) :
  forallb isWhiteSpace q = true ->
  handleSearch h q = Ret tt /\
  (forall net v,
      run net (handleSearch h q) v
      = {| trace := []; final := v; completion := inr tt |}) /\
  (forall w, searchQuery (view w) = q ->
             step h w (Ui (KeyPress (js "Enter"))) = w /\
             step h w (Ui Click) = w).
Proof.
  intros Hblank. apply trim_nil_iff in Hblank.
  assert (Hret : handleSearch h q = Ret tt).
  { unfold handleSearch. rewrite Hblank. reflexivity. }
  split; [exact Hret|]. split.
  - intros net v. rewrite Hret. reflexivity.
  - intros w Hw.
    assert (Hspawn : spawn h w = w).
    { unfold spawn, start. rewrite Hw, Hret. destruct w as [v ts l]. simpl.
      rewrite !app_nil_r. reflexivity. }
    split.
    + cbn. exact Hspawn.
    + cbn. destruct (isLoading (view w)); [reflexivity | exact Hspawn].
Qed.

(** C2: for every query whose trim is not empty, the first three events of
    a call are [setIsLoading(true)], [setData(null)], [setError(null)], in
    that order and ahead of every timer and request; the view after them is
    loading with no data and no error; and no event of the call writes the
    query, which every view of the trace and the final view keep. *)
Theorem search_opens_by_loading_and_clearing (h : Host) (q : jsstring)
    (net : jsstring -> Settled Response) (v : View) :
  trim q <> [] ->
  let r := run net (handleSearch h q) v in
  let v3 := applyUpdate (SetError None)
              (applyUpdate (SetData None) (applyUpdate (SetIsLoading true) v)) in
  (exists rest,
      trace r = (Updated (SetIsLoading true), applyUpdate (SetIsLoading true) v)
                :: (Updated (SetData None),
                    applyUpdate (SetData None) (applyUpdate (SetIsLoading true) v))
                :: (Updated (SetError None), v3)
                :: rest) /\
  isLoading v3 = true /\ data v3 = None /\ error v3 = None /\
  requestState v3 = loading /\ searchQuery v3 = searchQuery v /\
  existsb touchesQuery (events r) = false /\
  Forall (fun ev_view => searchQuery (snd ev_view) = searchQuery v) (trace r) /\
  searchQuery (final r) = searchQuery v.
Proof.
  intros Hq r v3. subst r v3. unfold events.
  search_cases h q net Hq;
    (split; [eexists; reflexivity|]);
    repeat (split; [reflexivity|]);
    (split; [|reflexivity]);
    repeat constructor.
Qed.

(** What an unreserved character is not. *)
Lemma unreserved_not_surrogate (c : Z) :
  uriUnreserved c = true -> isLowSurrogate c = false /\ isHighSurrogate c = false.
Proof. unfold uriUnreserved, isLowSurrogate, isHighSurrogate. lia. Qed.

(** [encodeURIComponent] throws exactly at the strings with an unpaired
    surrogate. *)
Lemma encodeURIComponent_defined (s : jsstring) :
  isWellFormed s = true <-> exists t, encodeURIComponent s = Some t.
Proof.
  assert (H : forall n s, (List.length s <= n)%nat ->
            (isWellFormed s = true <-> exists t, encodeURIComponent s = Some t)).
  { induction n as [|n IH]; intros [|c s'] Hlen; simpl in *;
      try (split; [intros _; eexists; reflexivity | reflexivity]);
      [lia|].
    destruct (uriUnreserved c) eqn:Hu.
    - destruct (unreserved_not_surrogate c Hu) as [-> ->].
      rewrite (IH s') by lia.
      split; intros [t Ht].
      + rewrite Ht. eexists. reflexivity.
      + destruct (encodeURIComponent s'); [eexists; reflexivity | discriminate].
    - destruct (isLowSurrogate c).
      { split; [discriminate | intros [t Ht]; discriminate]. }
      destruct (isHighSurrogate c).
      + destruct s' as [|d s'']; simpl in *.
        { split; [discriminate | intros [t Ht]; discriminate]. }
        destruct (isLowSurrogate d); simpl.
        * rewrite (IH s'') by lia.
          split; intros [t Ht].
          -- rewrite Ht. eexists. reflexivity.
          -- destruct (encodeURIComponent s''); [eexists; reflexivity | discriminate].
        * split; [discriminate | intros [t Ht]; discriminate].
      + rewrite (IH s') by lia.
        split; intros [t Ht].
        * rewrite Ht. eexists. reflexivity.
        * destruct (encodeURIComponent s'); [eexists; reflexivity | discriminate]. }
  exact (H (List.length s) s (le_n _)).
Qed.

(** *** The escaped component is safe in a URL *)

(** The hexadecimal digits are unreserved characters. *)
Lemma hexDigit_safe (n : Z) :
  0 <= n < 16 -> uriSafe (hexDigit n) = true.
Proof.
  unfold uriSafe, uriUnreserved, hexDigit. intros H.
  destruct (n <? 10) eqn:E; lia.
Qed.

Lemma log2_below (n a : Z) :
  0 < n -> 0 <= a < 2 ^ n -> Z.log2 a < n.
Proof.
  intros Hn Ha. destruct (Z.eq_dec a 0) as [->|Hz]; [exact Hn|].
  apply Z.log2_lt_pow2; lia.
Qed.

(** Bitwise or stays below the power of two its arguments are below. *)
Lemma lor_below (n a b : Z) :
  0 <= n -> 0 <= a < 2 ^ n -> 0 <= b < 2 ^ n -> 0 <= Z.lor a b < 2 ^ n.
Proof.
  intros Hn Ha Hb.
  assert (Hpos : 0 <= Z.lor a b) by (apply Z.lor_nonneg; lia).
  split; [exact Hpos|].
  destruct (Z.eq_dec (Z.lor a b) 0) as [->|Hz]; [lia|].
  assert (Hn' : 0 < n).
  { destruct (Z.eq_dec n 0) as [->|]; [|lia].
    exfalso. apply Hz. replace a with 0 by (cbn in Ha; lia).
    replace b with 0 by (cbn in Hb; lia). reflexivity. }
  apply Z.log2_lt_pow2; [lia|].
  rewrite Z.log2_lor by lia.
  apply Z.max_lub_lt; apply log2_below; assumption.
Qed.

Lemma shiftr_below (a k n : Z) :
  0 <= k -> 0 <= n -> 0 <= a < 2 ^ (n + k) -> 0 <= Z.shiftr a k < 2 ^ n.
Proof.
  intros Hk Hn Ha. rewrite Z.shiftr_div_pow2 by lia.
  rewrite Z.pow_add_r in Ha by lia.
  split; [apply Z.div_pos; lia | apply Z.div_lt_upper_bound; lia].
Qed.

Lemma land_below (a n : Z) :
  0 <= n -> 0 <= Z.land a (Z.ones n) < 2 ^ n.
Proof.
  intros Hn. rewrite Z.land_ones by lia. apply Z.mod_pos_bound. lia.
Qed.

Lemma percentOctet_safe (b : Z) :
  0 <= b < 256 -> forallb uriSafe (percentOctet b) = true.
Proof.
  intros Hb. unfold percentOctet. cbn [forallb].
  rewrite !hexDigit_safe; [reflexivity| |].
  - pose proof (land_below b 4). change (Z.ones 4) with 0xF in *. lia.
  - pose proof (shiftr_below b 4 4). lia.
Qed.

(** The UTF-8 encoding of a code point is made of octets. *)
Lemma utf8_octets (cp : Z) :
  0 <= cp < 0x110000 -> Forall (fun b => 0 <= b < 256) (utf8 cp).
Proof.
  intros Hcp. unfold utf8.
  assert (Htail : forall a, 0 <= Z.lor 0x80 (Z.land a 0x3F) < 256).
  { intros a. apply (lor_below 8); [lia|lia|].
    pose proof (land_below a 6). change (Z.ones 6) with 0x3F in *. lia. }
  assert (Hlead : forall mark k n,
             0 <= mark < 256 -> 0 <= k -> 0 <= n <= 8 -> cp < 2 ^ (n + k) ->
             0 <= Z.lor mark (Z.shiftr cp k) < 256).
  { intros mark k n Hm Hk Hn Hlt. apply (lor_below 8); [lia|lia|].
    pose proof (shiftr_below cp k n Hk (proj1 Hn) (conj (proj1 Hcp) Hlt)).
    assert (2 ^ n <= 2 ^ 8) by (apply Z.pow_le_mono_r; lia). lia. }
  destruct (cp <? 0x80) eqn:E1;
    [|destruct (cp <? 0x800) eqn:E2;
      [|destruct (cp <? 0x10000) eqn:E3]];
    repeat apply Forall_cons; try apply Forall_nil; try apply Htail.
  - lia.
  - apply (Hlead 0xC0 6 5); lia.
  - apply (Hlead 0xE0 12 4); lia.
  - apply (Hlead 0xF0 18 3); lia.
Qed.

Lemma percentEncode_safe (cp : Z) :
  0 <= cp < 0x110000 -> forallb uriSafe (percentEncode cp) = true.
Proof.
  intros Hcp. unfold percentEncode.
  pose proof (utf8_octets cp Hcp) as H.
  induction H as [|b l Hb Hl IH]; [reflexivity|].
  cbn [flat_map].
  rewrite forallb_app, percentOctet_safe, IH by assumption. reflexivity.
Qed.

(** The escaped component holds unreserved characters and [%XY] escapes
    only: none of the delimiters of a URL, and no white space. *)
Lemma encodeURIComponent_safe (s t : jsstring) :
  forallb isUnit s = true ->
  encodeURIComponent s = Some t ->
  forallb uriSafe t = true.
Proof.
  assert (H : forall n s t,
             (List.length s <= n)%nat ->
             forallb isUnit s = true ->
             encodeURIComponent s = Some t ->
             forallb uriSafe t = true).
  { clear s t.
    induction n as [|n IH]; intros [|c s'] t Hlen Hu He; cbn in *;
      try (injection He as <-; reflexivity); [lia|].
    apply andb_prop in Hu. destruct Hu as [Hc Hs'].
    destruct (uriUnreserved c) eqn:Hun.
    - destruct (encodeURIComponent s') as [t'|] eqn:Ht'; [|discriminate].
      injection He as <-. cbn. unfold uriSafe at 1. rewrite Hun. cbn.
      apply (IH s' t'); [lia|assumption|assumption].
    - destruct (isLowSurrogate c) eqn:Hlo; [discriminate|].
      destruct (isHighSurrogate c) eqn:Hhi.
      + destruct s' as [|d s'']; [discriminate|].
        cbn in Hs', Hlen. apply andb_prop in Hs'. destruct Hs' as [Hd Hs''].
        destruct (isLowSurrogate d) eqn:Hdlo; [|discriminate].
        destruct (encodeURIComponent s'') as [t'|] eqn:Ht'; [|discriminate].
        injection He as <-. rewrite forallb_app.
        rewrite percentEncode_safe.
        * apply (IH s'' t'); [lia|assumption|assumption].
        * unfold pairCodePoint, isHighSurrogate, isLowSurrogate in *. lia.
      + destruct (encodeURIComponent s') as [t'|] eqn:Ht'; [|discriminate].
        injection He as <-. rewrite forallb_app.
        rewrite percentEncode_safe.
        * apply (IH s' t'); [lia|assumption|assumption].
        * unfold isUnit in Hc. lia. }
  intros Hu He. exact (H (List.length s) s t (le_n _) Hu He).
Qed.

(** C3, as amended: when the request of a query is rejected, or fulfilled
    with a status outside 200-299, the call ends with [isLoading] false,
    [data] null and [error] set, so in the error state, and no event of the
    call stores a result. After a status that is not ok the message is
    ['Network response was not ok'] whatever the status; after a rejection
    it is the message of the thrown [Error], as it is, or
    ['An unknown error occurred'] when the reason is no [Error]: it is
    empty exactly when the thrown [Error] has an empty message. *)
Theorem failed_request_reports_error (h : Host) (q : jsstring)
    (net : jsstring -> Settled Response) (v : View) (topic : jsstring) :
  trim q <> [] ->
  encodeURIComponent q = Some topic ->
  let r := run net (handleSearch h q) v in
  let failedWith (m : jsstring) :=
    final r = {| searchQuery := searchQuery v; isLoading := false;
                 data := None; error := Some m; loadingPhase := [] |} /\
    requestState (final r) = failed /\
    existsb storesData (events r) = false in
  (forall resp, net (scrapeUrl topic) = Fulfilled resp -> ok resp = false ->
                failedWith notOkMessage) /\
  (forall e, net (scrapeUrl topic) = Rejected e -> failedWith (errorText e)) /\
  notOkMessage = js "Network response was not ok" /\
  truthy notOkMessage = true /\
  (forall e, truthy (errorText e) = false <-> e = JsError []).
Proof.
  intros Hq Henc r failedWith. subst r failedWith. cbv beta.
  split; [|split; [|split; [reflexivity|split; [reflexivity|]]]].
  - intros resp Hnet Hok. unfold events.
    enter_search Hq. rewrite Henc. cbn. rewrite Hnet. cbn. rewrite Hok. cbn.
    repeat split.
  - intros e Hnet. unfold events.
    enter_search Hq. rewrite Henc. cbn. rewrite Hnet. cbn.
    repeat split.
  - intros [m|]; cbn.
    + destruct m; split; intros H; try reflexivity; try discriminate.
    + split; discriminate.
Qed.

(** C3, the claim as stated fails: a request rejected with an [Error] whose
    message is the empty string leaves the empty string in [error], which
    is not a non-empty message. *)
Lemma empty_rejection_message_counterexample :
  let r := run (offline []) (handleSearch sampleHost (js "a")) initialView in
  error (final r) = Some [] /\
  ~ (exists m, error (final r) = Some m /\ truthy m = true).
Proof.
  cbv zeta. split; [reflexivity|].
  intros [m [Hm Ht]]. vm_compute in Hm. injection Hm as <-. discriminate.
Qed.

(** C5, as amended: for every query whose trim is not empty the call sets
    the three labels in the fixed order, waits 1500 ms after the first and
    2000 ms after the second, and after the third sets no further timer and
    no further label until the [finally] block empties it. What follows the
    third label at once is the request when the query can be escaped, which
    is when it has no unpaired surrogate; otherwise it is the report of the
    [URIError], and the call issues no request. *)
Theorem loading_phases_sequence (h : Host) (q : jsstring)
    (net : jsstring -> Settled Response) (v : View) :
  trim q <> [] ->
  exists rest,
    events (run net (handleSearch h q) v)
    = [ Updated (SetIsLoading true); Updated (SetData None);
        Updated (SetError None);
        Updated (SetLoadingPhase phaseSearching); TimerSet 1500;
        Updated (SetLoadingPhase phaseScraping); TimerSet 2000;
        Updated (SetLoadingPhase phaseAnalyzing) ] ++ rest /\
    existsb isTimer rest = false /\
    existsb isPhase rest = false /\
    (forall topic, encodeURIComponent q = Some topic ->
                   hd_error rest = Some (Requested GET (scrapeUrl topic))) /\
    phaseSearching = js "Searching social platforms..." /\
    phaseScraping = js "Scraping and parsing results..." /\
    phaseAnalyzing = js "Analyzing sentiment and synthesizing data..." /\
    (isWellFormed q = true ->
     exists topic, encodeURIComponent q = Some topic /\
                   hd_error rest = Some (Requested GET (scrapeUrl topic))) /\
    (isWellFormed q = false ->
     hd_error rest = Some (Updated (SetError (Some (uriErrorMessage h)))) /\
     existsb isRequest rest = false).
Proof.
  intros Hq. unfold events.
  assert (Hdef : forall t, encodeURIComponent q = Some t ->
                           isWellFormed q = true).
  { intros t Ht. apply encodeURIComponent_defined. exists t. exact Ht. }
  assert (Hundef : encodeURIComponent q = None -> isWellFormed q = false).
  { intros Hn. destruct (isWellFormed q) eqn:Hwf; [|reflexivity].
    apply encodeURIComponent_defined in Hwf. destruct Hwf as [t Ht].
    congruence. }
  search_cases h q net Hq; eexists; (split; [reflexivity|]);
    repeat (split; [reflexivity|]);
    (split; [intros t Ht; cbn; congruence|]);
    repeat (split; [reflexivity|]);
    (split; [intros Hwf|intros Hwf]);
    first [ rewrite (Hdef _ eq_refl) in Hwf; discriminate Hwf
          | rewrite (Hundef eq_refl) in Hwf; discriminate Hwf
          | eexists; split; reflexivity
          | split; reflexivity ].
Qed.

(** C5, the claim as stated fails: the third label is not followed by a
    pause. The call has two timers, and the event right after the third
    label is the request. *)
Lemma third_phase_has_no_pause_counterexample :
  let evs := events (run (answering (okResponse (Some sampleData)))
                         (handleSearch sampleHost (js "a")) initialView) in
  pausesAfterEachPhase evs = false /\
  List.length (filter isTimer evs) = 2%nat /\
  nth_error evs 7 = Some (Updated (SetLoadingPhase phaseAnalyzing)) /\
  nth_error evs 8 = Some (Requested GET (js "/api/scrape?topic=a")).
Proof. vm_compute. repeat split. Qed.

(** C6, as amended: for every query whose trim is not empty and which has
    no unpaired surrogate, the call issues exactly one request, whatever
    becomes of it: a GET of ['/api/scrape?topic='] followed by
    [encodeURIComponent] of the query as typed (not of its trim). *)
Theorem wellformed_query_issues_one_request (h : Host) (q : jsstring)
    (net : jsstring -> Settled Response) (v : View) :
  trim q <> [] ->
  isWellFormed q = true ->
  exists topic,
    encodeURIComponent q = Some topic /\
    requests (run net (handleSearch h q) v)
    = [Requested (js "GET") (js "/api/scrape?topic=" ++ topic)].
Proof.
  intros Hq Hwf.
  apply encodeURIComponent_defined in Hwf. destruct Hwf as [t Ht].
  exists t. split; [exact Ht|].
  unfold requests, events.
  search_cases h q net Hq; try discriminate;
    injection Ht as <-; reflexivity.
Qed.

(** C6, the claim as stated fails: the query made of one unpaired high
    surrogate is not empty after [trim], and its call issues no request,
    since [encodeURIComponent] throws; the call reports the [URIError]. *)
Lemma lone_surrogate_query_counterexample :
  let r := run (answering (okResponse (Some sampleData)))
               (handleSearch sampleHost [0xD800]) initialView in
  trim [0xD800] <> [] /\
  requests r = [] /\
  error (final r) = Some (js "URI malformed").
Proof.
  cbv zeta. split; [discriminate|]. split; reflexivity.
Qed.



(** ** Calls on the page *)

(** A call that is alone on the page, and whose promises settle one after
    the other, goes through the event loop as [run] says. *)
Lemma alone_on_the_page (h : Host) (net : jsstring -> Settled Response)
    (p : Async unit) (v : View) (l : list (Event * View)) :
  steps h (start p {| view := v; tasks := []; log := l |}) (schedule net p)
  = {| view := final (run net p v); tasks := [];
       log := l ++ trace (run net p v) |}.
Proof.
  revert v l.
  assert (Hwake : forall (k : Async unit) v l ev,
             (let '(evs, v', t) := advance k v in
              {| view := v';
                 tasks := optionToList t ++ [];
                 log := (l ++ [ev]) ++ evs |})
             = start k {| view := v; tasks := []; log := l ++ [ev] |}).
  { intros k v l ev. unfold start. cbn.
    destruct (advance k v) as [[evs v'] t]. rewrite app_nil_r. reflexivity. }
  unfold steps.
  induction p as [a|e|u k IH|ms k IH|input k IH|r k IH]; intros v l.
  - cbn. rewrite app_nil_r. reflexivity.
  - cbn. rewrite app_nil_r. reflexivity.
  - replace (start (Do u k) {| view := v; tasks := []; log := l |})
      with (start k {| view := applyUpdate u v; tasks := [];
                       log := l ++ [(Updated u, applyUpdate u v)] |}).
    + cbn [schedule]. rewrite IH. cbn. rewrite <- app_assoc. reflexivity.
    + unfold start. cbn.
      destruct (advance k (applyUpdate u v)) as [[evs v'] t].
      rewrite <- app_assoc. reflexivity.
  - cbn [schedule fold_left].
    unfold start at 1. cbn. rewrite Hwake, IH. cbn.
    rewrite <- app_assoc. reflexivity.
  - cbn [schedule fold_left].
    unfold start at 1. cbn. rewrite Hwake, IH. cbn.
    rewrite <- app_assoc. reflexivity.
  - cbn [schedule fold_left].
    unfold start at 1. cbn. rewrite Hwake, IH. cbn.
    rewrite <- app_assoc. reflexivity.
Qed.

(** The button does nothing while a call is loading. *)
Lemma click_while_loading (h : Host) (w : World) :
  isLoading (view w) = true -> step h w (Ui Click) = w.
Proof. intros H. cbn. rewrite H. reflexivity. Qed.

(** Within one call that runs alone, [data] and [error] are never both
    set: not in any view of its trace, and not in the view it leaves. *)
Lemma lone_call_keeps_exclusive (h : Host) (q : jsstring)
    (net : jsstring -> Settled Response) (v : View) :
  exclusive v = true ->
  let r := run net (handleSearch h q) v in
  forallb (fun ev_view => exclusive (snd ev_view)) (trace r) = true /\
  exclusive (final r) = true.
Proof.
  intros Hv r. subst r.
  destruct (trim q) as [|c t] eqn:Hq.
  - unfold handleSearch. rewrite Hq. cbn. auto.
  - assert (Hne : trim q <> []) by (rewrite Hq; discriminate).
    clear Hq. unfold exclusive in *.
    search_cases h q net Hne; rewrite ?Hv;
      try (destruct d); try (destruct (error v)); auto.
Qed.

(** C9, what the code does where the claim fails: after typing ["a"] and
    pressing Enter a call is suspended and the view is loading; the button
    is then inert, but a second Enter starts a second call: two calls are
    suspended, [setIsLoading(true)] ran while [isLoading] was already true,
    and each of the two calls then issues its own request. *)
Theorem enter_while_loading_starts_second_call :
  let w1 := steps sampleHost initialWorld
              [Ui (Change (js "a")); Ui (KeyPress (js "Enter"))] in
  let w2 := step sampleHost w1 (Ui (KeyPress (js "Enter"))) in
  let w3 := steps sampleHost w2
              [Settle 0 TimerFired; Settle 0 TimerFired;
               Settle 1 TimerFired; Settle 1 TimerFired] in
  isLoading (view w1) = true /\
  List.length (tasks w1) = 1%nat /\
  reloads initialView (log w1) = 0%nat /\
  step sampleHost w1 (Ui Click) = w1 /\
  isLoading (view w2) = true /\
  List.length (tasks w2) = 2%nat /\
  reloads initialView (log w2) = 1%nat /\
  List.length (filter isRequest (map fst (log w3))) = 2%nat.
Proof. vm_compute. repeat split. Qed.

(** C4, what the code does where the claim fails: two calls started by two
    Enters overlap; the request of the first is rejected and the request of
    the second is answered, and the page ends with [data] and [error] both
    set, no call being in flight. *)
Theorem overlapping_calls_set_data_and_error :
  let w := steps sampleHost initialWorld
             [Ui (Change (js "a"));
              Ui (KeyPress (js "Enter")); Ui (KeyPress (js "Enter"));
              Settle 0 TimerFired; Settle 0 TimerFired;
              Settle 1 TimerFired; Settle 1 TimerFired;
              Settle 0 (FetchSettled (Rejected (JsError (js "Failed to fetch"))));
              Settle 0 (FetchSettled (Fulfilled (okResponse (Some sampleData))));
              Settle 0 BodySettled] in
  tasks w = [] /\
  isLoading (view w) = false /\
  data (view w) = Some sampleData /\
  error (view w) = Some (js "Failed to fetch") /\
  exclusive (view w) = false.
Proof. vm_compute. repeat split. Qed.

(** X15: a call started while no other is in flight, and left alone until
    it ends, leaves the page with no call in flight and with at most one of
    [data] and [error] set: only overlapping calls can set both. *)
Lemma sequential_call_keeps_exclusive (h : Host)
    (net : jsstring -> Settled Response) (w : World) :
  tasks w = [] ->
  exclusive (view w) = true ->
  let q := searchQuery (view w) in
  let w' := steps h (spawn h w) (schedule net (handleSearch h q)) in
  tasks w' = [] /\ exclusive (view w') = true.
Proof.
  intros Ht Hv q w'. subst q w'. destruct w as [v ts l]. cbn in Ht, Hv.
  subst ts. unfold spawn. cbn [view]. rewrite alone_on_the_page. cbn.
  split; [reflexivity|].
  apply (lone_call_keeps_exclusive h (searchQuery v) net v Hv).
Qed.

Lemma reloads_app (v : View) (l1 l2 : list (Event * View)) :
  reloads v (l1 ++ l2) = (reloads v l1 + reloads (lastView v l1) l2)%nat.
Proof.
  revert v. induction l1 as [|[ev x] l1 IH]; intros v; [reflexivity|].
  cbn [app reloads]. rewrite IH. unfold lastView. cbn [map snd].
  rewrite last_cons_default. lia.
Qed.

Lemma lastView_app (v : View) (l1 l2 : list (Event * View)) :
  lastView v (l1 ++ l2) = lastView (lastView v l1) l2.
Proof.
  revert v. induction l1 as [|[ev x] l1 IH]; intros v; [reflexivity|].
  unfold lastView in *. cbn [app map snd]. rewrite !last_cons_default. apply IH.
Qed.

Lemma advance_quiet (p : Async unit) (v : View) :
  quiet (isLoading v) p ->
  reloads v (fst (fst (advance p v))) = 0%nat /\
  lastView v (fst (fst (advance p v))) = snd (fst (advance p v)) /\
  match snd (advance p v) with
  | None => isLoading (snd (fst (advance p v))) = false
  | Some t => isLoading (snd (fst (advance p v))) = true /\ quiet true t
  end.
Proof.
  revert v. induction p as [a|e|u k IH|ms k IH|input k IH|r k IH]; intros v Hq.
  - cbn in *. auto.
  - cbn in *. auto.
  - cbn [advance].
    assert (Hk : quiet (isLoading (applyUpdate u v)) k /\
                 (u = SetIsLoading true -> isLoading v = false)).
    { destruct u as [s|b|d|e|ph]; cbn in Hq |- *;
        try (split; [exact Hq | discriminate]).
      destruct Hq as [Hb Hq]. split; [exact Hq|].
      intros Hu. injection Hu as ->. auto. }
    destruct Hk as [Hk Hu]. specialize (IH _ Hk).
    destruct (advance k (applyUpdate u v)) as [[evs v'] t].
    cbn [fst snd] in IH |- *.
    destruct IH as [Hr [Hl Ht]].
    unfold lastView in *. cbn [map snd reloads]. rewrite last_cons_default.
    split; [|split; assumption].
    rewrite Hr. destruct u as [s|[|]|d|e|ph]; try reflexivity.
    rewrite (Hu eq_refl). reflexivity.
  - cbn in *. destruct Hq as [Hl Hq]. rewrite Hl. auto.
  - cbn in *. destruct Hq as [Hl Hq]. rewrite Hl. auto.
  - cbn in *. destruct Hq as [Hl Hq]. rewrite Hl. auto.
Qed.

Lemma handleSearch_quiet (h : Host) (q : jsstring) :
  quiet false (handleSearch h q).
Proof.
  unfold handleSearch. destruct (truthy (trim q)); cbn [negb]; [|reflexivity].
  unfold searchBody, encodeTopic.
  destruct (encodeURIComponent q) as [topic|]; cbn.
  - repeat split; try discriminate. intros [r|e]; cbn; [|repeat split; discriminate].
    destruct (ok r); cbn; [|repeat split; discriminate].
    split; [reflexivity|]. intros [d|e]; cbn; repeat split; discriminate.
  - repeat split; discriminate.
Qed.

Lemma calm_woken (w : World) (p : Async unit) :
  reloads initialView (log w) = 0%nat ->
  lastView initialView (log w) = view w ->
  quiet (isLoading (view w)) p ->
  calm (let '(evs, v', t) := advance p (view w) in
        {| view := v'; tasks := optionToList t; log := log w ++ evs |}).
Proof.
  intros Hr Hl Hq.
  destruct (advance_quiet p (view w) Hq) as [Hr' [Hl' Ht]].
  destruct (advance p (view w)) as [[evs v'] t]. cbn [fst snd] in *.
  unfold calm. cbn [log view tasks].
  rewrite reloads_app, lastView_app, Hl, Hr, Hr', Hl'.
  split; [reflexivity|]. split; [reflexivity|].
  destruct t as [t|]; exact Ht.
Qed.

Lemma calm_spawn (h : Host) (w : World) :
  calm w -> isLoading (view w) = false -> calm (spawn h w).
Proof.
  intros [Hr [Hl Ht]] Hidle.
  assert (Hts : tasks w = []).
  { destruct (tasks w) as [|t [|t' ts]]; [reflexivity| |contradiction].
    destruct Ht as [Ht _]. congruence. }
  unfold spawn, start. rewrite Hts. cbn [app].
  apply calm_woken; [assumption|assumption|].
  rewrite Hidle. apply handleSearch_quiet.
Qed.

Lemma calm_step (h : Host) (w : World) (i : Input) :
  pressesEnter i = false -> calm w -> calm (step h w i).
Proof.
  intros Hi Hc. destruct i as [[value| |key]|n s]; cbn [step].
  - destruct Hc as [Hr [Hl Ht]]. unfold calm. cbn [log view tasks].
    rewrite reloads_app, lastView_app, Hr. cbn. repeat split.
    exact Ht.
  - destruct (isLoading (view w)) eqn:Hload; [exact Hc|].
    apply calm_spawn; assumption.
  - change (strictEq key (js "Enter") = false) in Hi. rewrite Hi. exact Hc.
  - destruct (nth_error (tasks w) n) as [p|] eqn:Hn; [|exact Hc].
    destruct (resume p s) as [p'|] eqn:Hp; [|exact Hc].
    pose proof Hc as [Hr [Hl Ht]].
    destruct (tasks w) as [|t [|t' ts]] eqn:Hts; [destruct n; discriminate| |contradiction].
    destruct n as [|n]; [|destruct n; discriminate].
    cbn in Hn. injection Hn as ->. destruct Ht as [Hload Hq].
    cbn [firstn skipn app]. 
    assert (Hq' : quiet (isLoading (view w)) p').
    { rewrite Hload.
      destruct p as [a|e|u k|ms k|input k|r k]; destruct s as [|o|];
        cbn in Hp; try discriminate; injection Hp as <-; cbn in Hq;
        destruct Hq as [_ Hq]; auto. }
    pose proof (calm_woken w p' Hr Hl Hq') as Hw.
    destruct (advance p' (view w)) as [[evs v'] t'].
    rewrite app_nil_r. exact Hw.
Qed.

(** As long as Enter is not pressed in the text field, calls never
    overlap: whatever is typed, however often the button is clicked and in
    whatever order the promises settle, the page stays calm. *)
Lemma without_enter_calm (h : Host) (inputs : list Input) :
  existsb pressesEnter inputs = false ->
  calm (steps h initialWorld inputs).
Proof.
  assert (H : forall w, calm w -> existsb pressesEnter inputs = false ->
                        calm (steps h w inputs)).
  { induction inputs as [|i l IH]; intros w Hc Hl; [exact Hc|].
    cbn in Hl. apply orb_false_elim in Hl. destruct Hl as [Hi Hl].
    cbn [steps fold_left]. apply IH; [|exact Hl].
    apply calm_step; assumption. }
  intros Hl. apply H; [|exact Hl].
  unfold calm. cbn. auto.
Qed.

(** X14: through the button alone no call starts while one is in flight:
    at most one call is suspended, [isLoading] never goes from true to
    true, and the page is loading exactly while a call is suspended. *)
Lemma button_never_starts_second_call (h : Host) (inputs : list Input) :
  existsb pressesEnter inputs = false ->
  let w := steps h initialWorld inputs in
  reloads initialView (log w) = 0%nat /\
  (List.length (tasks w) <= 1)%nat /\
  (tasks w = [] <-> isLoading (view w) = false).
Proof.
  intros Hl w. destruct (without_enter_calm h inputs Hl) as [Hr [_ Ht]].
  fold w in Hr, Ht. split; [exact Hr|].
  destruct (tasks w) as [|t [|t' ts]]; [| |contradiction].
  - split; [cbn; lia|]. split; [intros _; exact Ht | reflexivity].
  - destruct Ht as [Hload _]. split; [cbn; lia|].
    split; [discriminate | congruence].
Qed.

(** ** Rendering *)

(** [slice(1, 10)] drops the first element and keeps at most nine. *)
Lemma slice_1_10 {A : Type} (l : list A) :
  slice 1 10 l = firstn 9 (tl l).
Proof.
  unfold slice. cbn [Z.ltb Z.compare].
  destruct l as [|x l]; [reflexivity|].
  cbn [List.length tl].
  replace (Z.to_nat (Z.min 1 (Z.of_nat (S (List.length l))))) with 1%nat by lia.
  cbn [skipn].
  destruct (Nat.le_gt_cases 9 (List.length l)) as [Hlong|Hshort].
  - replace (Z.to_nat (Z.min 10 (Z.of_nat (S (List.length l)))
                       - Z.min 1 (Z.of_nat (S (List.length l))))) with 9%nat by lia.
    reflexivity.
  - replace (Z.to_nat (Z.min 10 (Z.of_nat (S (List.length l)))
                       - Z.min 1 (Z.of_nat (S (List.length l)))))
      with (List.length l) by lia.
    rewrite firstn_all, firstn_all2 by lia. reflexivity.
Qed.

Lemma nth_error_firstn_tl {A : Type} (l : list A) (i : nat) :
  nth_error (firstn 9 (tl l)) i
  = if (i <? 9)%nat then nth_error l (S i) else None.
Proof.
  destruct (Nat.ltb_spec i 9) as [Hi|Hi].
  - rewrite nth_error_firstn.
    destruct (Nat.ltb_spec i 9); [|lia].
    destruct l; [destruct i|]; reflexivity.
  - apply nth_error_None. rewrite length_firstn. lia.
Qed.

(** The cards of a list of articles exist when every URL parses, one card
    per article. *)
Lemma articleCards_defined (h : Host) (l : list Article) (index : nat) :
  (forall a, In a l -> hostname h (url a) <> None) ->
  exists cs, articleCards h index l = Some cs /\
             List.length cs = List.length l.
Proof.
  revert index. induction l as [|a l IH]; intros index Hall; cbn.
  - exists []. split; reflexivity.
  - destruct (hostname h (url a)) as [host|] eqn:Hh.
    + destruct (IH (S index)) as [cs [Hcs Hlen]].
      { intros b Hb. apply Hall. right. exact Hb. }
      rewrite Hcs. eexists. split; [reflexivity|]. cbn. rewrite Hlen.
      reflexivity.
    + exfalso. apply (Hall a); [left; reflexivity | exact Hh].
Qed.

(** The results section renders when every article URL parses. *)
Lemma resultsSection_defined (h : Host) (d : ApiResponse) :
  (forall a, In a (articles d) -> hostname h (url a) <> None) ->
  exists r, resultsSection h d = Some r.
Proof.
  intros Hall. unfold resultsSection.
  destruct (articleCards_defined h (articles d) 0 Hall) as [cs [-> _]].
  eexists. reflexivity.
Qed.

(** What [App] shows of a result is its results section. *)
Lemma App_results (h : Host) (v : View) (d : ApiResponse) (scr : Screen) :
  data v = Some d ->
  App h v = Some scr ->
  exists r, resultsSection h d = Some r /\ results scr = Some r.
Proof.
  unfold App. intros ->.
  destruct (resultsSection h d) as [r|]; [|discriminate].
  intros H. injection H as <-. exists r. split; reflexivity.
Qed.

(** C8: whenever [App] renders a view that holds a result, the three
    summary numbers and the counts of the three rows of the chart, named
    Positive, Neutral and Negative in this order, are the lengths of the
    three mention lists of the result; and a result with no article and no
    mention always renders, with the three counts and the number of sources
    at zero and no card. *)
Theorem rendered_counts_are_lengths (h : Host) :
  (forall v d scr,
      data v = Some d ->
      App h v = Some scr ->
      exists r,
        results scr = Some r /\
        positiveCount r = List.length (positive (mentions d)) /\
        neutralCount r = List.length (neutral (mentions d)) /\
        negativeCount r = List.length (negative (mentions d)) /\
        chartData r = sentimentData (data v) /\
        map (fun b => (barName b, count b)) (chartData r)
        = [ (js "Positive", List.length (positive (mentions d)));
            (js "Neutral", List.length (neutral (mentions d)));
            (js "Negative", List.length (negative (mentions d))) ]) /\
  (forall v n,
      data v = Some (emptyData n) ->
      exists scr r,
        App h v = Some scr /\
        results scr = Some r /\
        positiveCount r = 0%nat /\ neutralCount r = 0%nat /\
        negativeCount r = 0%nat /\
        map count (chartData r) = [0%nat; 0%nat; 0%nat] /\
        sourcesAnalyzed r = 0%nat /\ cards r = []).
Proof.
  split.
  - intros v d scr Hd Happ.
    destruct (App_results h v d scr Hd Happ) as [r [Hr Hres]].
    exists r. split; [exact Hres|].
    unfold resultsSection in Hr.
    destruct (articleCards h 0 (articles d)); [|discriminate].
    injection Hr as <-. rewrite Hd. cbn. repeat split.
  - intros v n Hd. unfold App. rewrite Hd. cbn.
    eexists. eexists. split; [reflexivity|]. cbn. repeat split.
Qed.

(** C10: whenever [App] renders a view that holds a result, the quotes
    shown under each of the three categories are [slice(1, 10)] of the
    category: the quote shown at position [i] is the mention at index
    [i + 1] for [i] below nine and there is none from nine on, so the
    mention at index 0 has no position, at most nine are shown, namely
    [min 9 (length - 1)], and a category of exactly one mention shows no
    quote while its count shows 1. *)
Theorem quotes_are_mentions_one_to_nine (h : Host) (v : View)
    (d : ApiResponse) (scr : Screen) :
  data v = Some d ->
  App h v = Some scr ->
  let shown (l quotes : list jsstring) (n : nat) :=
    quotes = slice 1 10 l /\
    (forall i, nth_error quotes i
               = if (i <? 9)%nat then nth_error l (S i) else None) /\
    List.length quotes = Nat.min 9 (List.length l - 1) /\
    (List.length quotes <= 9)%nat /\
    n = List.length l /\
    (forall x, l = [x] -> quotes = [] /\ n = 1%nat) in
  exists r,
    results scr = Some r /\
    shown (positive (mentions d)) (positiveQuotes r) (positiveCount r) /\
    shown (neutral (mentions d)) (neutralQuotes r) (neutralCount r) /\
    shown (negative (mentions d)) (negativeQuotes r) (negativeCount r).
Proof.
  intros Hd Happ shown.
  assert (Hshown : forall l, shown l (slice 1 10 l) (List.length l)).
  { intros l. unfold shown. split; [reflexivity|].
    rewrite slice_1_10. split; [apply nth_error_firstn_tl|].
    split; [|split; [|split]].
    - rewrite length_firstn. destruct l; cbn [tl List.length]; lia.
    - rewrite length_firstn. lia.
    - reflexivity.
    - intros x ->. split; reflexivity. }
  destruct (App_results h v d scr Hd Happ) as [r [Hr Hres]].
  exists r. split; [exact Hres|].
  unfold resultsSection in Hr.
  destruct (articleCards h 0 (articles d)); [|discriminate].
  injection Hr as <-. cbn [positiveQuotes neutralQuotes negativeQuotes
                             positiveCount neutralCount negativeCount].
  split; [apply Hshown | split; apply Hshown].
Qed.

(** ** The theorems at sample inputs *)

Lemma blank_query_is_noop_witness :
  forallb isWhiteSpace (js "  ") = true /\
  handleSearch sampleHost (js "  ") = Ret tt.
Proof.
  split; [reflexivity|].
  apply (blank_query_is_noop sampleHost (js "  ")). reflexivity.
Defined.

Lemma search_opens_by_loading_and_clearing_witness :
  trim (js "a") <> [] /\
  searchQuery
    (final (run (offline (js "Failed to fetch"))
                (handleSearch sampleHost (js "a"))
                (applyUpdate (SetSearchQuery (js "a")) initialView)))
  = js "a".
Proof.
  assert (Hq : trim (js "a") <> []) by discriminate.
  split; [exact Hq|].
  apply (search_opens_by_loading_and_clearing sampleHost (js "a")
           (offline (js "Failed to fetch"))
           (applyUpdate (SetSearchQuery (js "a")) initialView) Hq).
Defined.

Lemma failed_request_reports_error_witness :
  trim (js "a b") <> [] /\
  encodeURIComponent (js "a b") = Some (js "a%20b") /\
  final (run (answering {| status := 503; json := Fulfilled None |})
             (handleSearch sampleHost (js "a b")) initialView)
  = {| searchQuery := []; isLoading := false; data := None;
       error := Some notOkMessage; loadingPhase := [] |}.
Proof.
  assert (Hq : trim (js "a b") <> []) by discriminate.
  split; [exact Hq|]. split; [reflexivity|].
  destruct (failed_request_reports_error sampleHost (js "a b")
              (answering {| status := 503; json := Fulfilled None |})
              initialView (js "a%20b") Hq eq_refl) as [Hstatus _].
  apply (Hstatus {| status := 503; json := Fulfilled None |}); reflexivity.
Defined.

Lemma loading_phases_sequence_witness :
  trim (js "a") <> [] /\
  exists rest,
    events (run (offline (js "Failed to fetch"))
                (handleSearch sampleHost (js "a")) initialView)
    = [ Updated (SetIsLoading true); Updated (SetData None);
        Updated (SetError None);
        Updated (SetLoadingPhase phaseSearching); TimerSet 1500;
        Updated (SetLoadingPhase phaseScraping); TimerSet 2000;
        Updated (SetLoadingPhase phaseAnalyzing) ] ++ rest.
Proof.
  assert (Hq : trim (js "a") <> []) by discriminate.
  split; [exact Hq|].
  destruct (loading_phases_sequence sampleHost (js "a")
              (offline (js "Failed to fetch")) initialView Hq)
    as [rest [Hrest _]].
  exists rest. exact Hrest.
Defined.

Lemma wellformed_query_issues_one_request_witness :
  trim (js " a&b ") <> [] /\
  isWellFormed (js " a&b ") = true /\
  exists topic,
    encodeURIComponent (js " a&b ") = Some topic /\
    requests (run (offline (js "Failed to fetch"))
                  (handleSearch sampleHost (js " a&b ")) initialView)
    = [Requested (js "GET") (js "/api/scrape?topic=" ++ topic)].
Proof.
  assert (Hq : trim (js " a&b ") <> []) by discriminate.
  split; [exact Hq|]. split; [reflexivity|].
  apply (wellformed_query_issues_one_request sampleHost (js " a&b ")
           (offline (js "Failed to fetch")) initialView Hq).
  reflexivity.
Defined.


Lemma rendered_counts_are_lengths_witness :
  let v := applyUpdate (SetData (Some sampleData)) initialView in
  data v = Some sampleData /\
  exists scr,
    App sampleHost v = Some scr /\
    exists r, results scr = Some r /\ positiveCount r = 1%nat.
Proof.
  cbv zeta. split; [reflexivity|].
  eexists. split; [reflexivity|].
  destruct (proj1 (rendered_counts_are_lengths sampleHost)
              (applyUpdate (SetData (Some sampleData)) initialView)
              sampleData _ eq_refl eq_refl) as [r [Hr [Hp _]]].
  exists r. split; [exact Hr | exact Hp].
Defined.

Lemma quotes_are_mentions_one_to_nine_witness :
  let v := applyUpdate (SetData (Some sampleData)) initialView in
  data v = Some sampleData /\
  exists scr,
    App sampleHost v = Some scr /\
    exists r, results scr = Some r /\ positiveQuotes r = [] /\
              positiveCount r = 1%nat.
Proof.
  cbv zeta. split; [reflexivity|].
  eexists. split; [reflexivity|].
  destruct (quotes_are_mentions_one_to_nine sampleHost
              (applyUpdate (SetData (Some sampleData)) initialView)
              sampleData _ eq_refl eq_refl)
    as [r [Hr [[_ [_ [_ [_ [_ Hone]]]]] _]]].
  exists r. split; [exact Hr|].
  apply (Hone (js "good")). reflexivity.
Defined.

(** * Further properties *)

(** ** What a call requests *)


(** X2: whatever the query (a sequence of 16-bit code units), every
    request of a call is for ['/api/scrape?topic='] followed by unreserved
    characters and [%] only: the query cannot add a parameter, a fragment
    or a path to the URL. *)
Theorem request_url_is_safe (h : Host) (q : jsstring)
    (net : jsstring -> Settled Response) (v : View) :
  forallb isUnit q = true ->
  Forall (fun ev =>
            match ev with
            | Requested _ input =>
                exists topic,
                  input = js "/api/scrape?topic=" ++ topic /\
                  forallb uriSafe topic = true
            | _ => True
            end)
         (events (run net (handleSearch h q) v)).
Proof.
  intros Hu. unfold events.
  destruct (trim q) as [|c t] eqn:Ht.
  - unfold handleSearch. rewrite Ht. cbn. apply Forall_nil.
  - assert (Hq : trim q <> []) by (rewrite Ht; discriminate). clear Ht.
    search_cases h q net Hq;
      repeat (apply Forall_cons;
              [first [exact I
                     | exists topic; split; [reflexivity|];
                       exact (encodeURIComponent_safe q topic Hu Henc)]|]);
      apply Forall_nil.
Qed.

(** [encodeURIComponent] leaves a string of unreserved characters as it
    is. *)
Lemma encodeURIComponent_unreserved (s : jsstring) :
  forallb uriUnreserved s = true -> encodeURIComponent s = Some s.
Proof.
  induction s as [|c s IH]; cbn; [reflexivity|].
  intros H. apply andb_prop in H. destruct H as [Hc Hs].
  rewrite Hc, (IH Hs). reflexivity.
Qed.

(** X3: a query that is not empty and made of ASCII letters, digits and
    the marks [- _ . ! ~ * ' ( )] only is requested as it is typed: the
    one request of the call is for ['/api/scrape?topic='] followed by the
    query itself. *)
Theorem plain_query_sent_verbatim (h : Host) (q : jsstring)
    (net : jsstring -> Settled Response) (v : View) :
  q <> [] ->
  forallb uriUnreserved q = true ->
  requests (run net (handleSearch h q) v)
  = [Requested GET (js "/api/scrape?topic=" ++ q)].
Proof.
  intros Hne Hu.
  assert (Hq : trim q <> []).
  { intros Hblank. apply trim_nil_iff in Hblank.
    destruct q as [|c q]; [congruence|]. cbn in Hu, Hblank.
    apply andb_prop in Hu. apply andb_prop in Hblank.
    destruct Hu as [Hu _]. destruct Hblank as [Hb _].
    unfold uriUnreserved in Hu. unfold isWhiteSpace in Hb. lia. }
  pose proof (encodeURIComponent_unreserved q Hu) as Henc'.
  unfold requests, events.
  search_cases h q net Hq; try discriminate;
    injection Henc' as <-; reflexivity.
Qed.

(** X4: every request a call issues, for whatever query, matches the
    ['/api'] entry of the proxy table of the development server, which
    sends it to the tunnel host with the same path and query string and
    with the origin changed. *)
Theorem requests_go_through_proxy (h : Host) (q : jsstring)
    (net : jsstring -> Settled Response) (v : View) :
  Forall (fun ev =>
            match ev with
            | Requested _ input =>
                route proxy input
                = Some {| target := tunnel; changeOrigin := true;
                          secure := false |} /\
                forward input = Some (tunnel ++ input)
            | _ => True
            end)
         (events (run net (handleSearch h q) v)).
Proof.
  unfold events.
  destruct (trim q) as [|c t] eqn:Ht.
  - unfold handleSearch. rewrite Ht. cbn. apply Forall_nil.
  - assert (Hq : trim q <> []) by (rewrite Ht; discriminate). clear Ht.
    search_cases h q net Hq;
      repeat (apply Forall_cons;
              [first [exact I | split; reflexivity]|]);
      apply Forall_nil.
Qed.

(** X5: a call for a query whose trim is not empty sets exactly two
    timers, of 1500 and 2000 ms; its request, which it issues exactly when
    the query has no unpaired surrogate, comes after both, so 3500 ms
    after the call began at the earliest; and the call is suspended at
    most four times (two timers, the request, the body). *)
Theorem request_waits_for_both_timers (h : Host) (q : jsstring)
    (net : jsstring -> Settled Response) (v : View) :
  trim q <> [] ->
  let evs := events (run net (handleSearch h q) v) in
  filter isTimer evs = [TimerSet 1500; TimerSet 2000] /\
  delayBeforeRequest evs
  = (if isWellFormed q then Some 3500 else None) /\
  (List.length (filter isAwait evs) <= 4)%nat.
Proof.
  intros Hq evs. subst evs. unfold events.
  destruct (isWellFormed q) eqn:Hwf.
  - apply encodeURIComponent_defined in Hwf. destruct Hwf as [t Ht].
    search_cases h q net Hq; try discriminate;
      repeat split; cbn; lia.
  - assert (Henc : encodeURIComponent q = None).
    { destruct (encodeURIComponent q) as [t|] eqn:E; [|reflexivity].
      assert (Hw : isWellFormed q = true)
        by (apply encodeURIComponent_defined; exists t; exact E).
      congruence. }
    enter_search Hq. rewrite Henc. cbn. repeat split. lia.
Qed.

(** ** What is on the screen *)

(** X6: a call for a query whose trim is not empty runs alone on the
    page: no other call is in flight and nothing is typed until it ends.
    Each time it is suspended,
    whatever the view it started from showed, [App] renders the loading
    screen: the label is one of the three, the button is disabled, the
    hero is small, and neither an error nor results are shown; the text
    field keeps its value. *)
Theorem waiting_screen (h : Host) (q : jsstring)
    (net : jsstring -> Settled Response) (v : View) :
  trim q <> [] ->
  Forall (fun ev_view =>
            isAwait (fst ev_view) = true ->
            In (loadingPhase (snd ev_view))
               [phaseSearching; phaseScraping; phaseAnalyzing] /\
            App h (snd ev_view)
            = Some (waitingScreen (searchQuery v)
                                  (loadingPhase (snd ev_view))))
         (trace (run net (handleSearch h q) v)).
Proof.
  intros Hq.
  search_cases h q net Hq;
    repeat (apply Forall_cons;
            [cbn; intros Ha;
             first [discriminate Ha | split; [auto 6 | reflexivity]]|]);
    apply Forall_nil.
Qed.

(** X7: a call for a query whose trim is not empty runs alone on the
    page: no other call is in flight and nothing is typed until it ends.
    When it has ended, the button is
    enabled and there is no spinner. If a body was decoded and is a
    result, [App] shows its results section and no error, or throws where
    the section throws; if the body is the JSON [null] the screen is the
    one of a page on which nothing was searched; and if the call failed,
    the error panel shows the message unless it is the empty string, with
    no results and the hero at full height. *)
Theorem resting_screen (h : Host) (q : jsstring)
    (net : jsstring -> Settled Response) (v : View) :
  trim q <> [] ->
  let r := run net (handleSearch h q) v in
  match decoded net q with
  | Some (Some d) =>
      App h (final r)
      = option_map (fun res => restingScreen (searchQuery v) None (Some res))
                   (resultsSection h d)
  | Some None =>
      App h (final r) = Some (restingScreen (searchQuery v) None None)
  | None =>
      exists m,
        error (final r) = Some m /\
        App h (final r)
        = Some (restingScreen (searchQuery v)
                  (if truthy m then Some m else None) None)
  end.
Proof.
  intros Hq r. subst r. unfold decoded.
  search_cases h q net Hq; rewrite ?Hnet, ?Hok, ?Hjson.
  - destruct d as [d|]; [|reflexivity].
    unfold App. cbn. destruct (resultsSection h d); reflexivity.
  - eexists. split; [reflexivity|]. destruct (errorText e); reflexivity.
  - eexists. split; [reflexivity|]. reflexivity.
  - eexists. split; [reflexivity|]. destruct (errorText e); reflexivity.
  - eexists. split; [reflexivity|]. destruct (uriErrorMessage h); reflexivity.
Qed.

(** The cards of a list of articles: one per article and in the same
    order, numbered from [index + 1]. *)
Lemma articleCards_shape (h : Host) (l : list Article) (index : nat)
    (cs : list ArticleCard) :
  articleCards h index l = Some cs ->
  List.length cs = List.length l /\
  forall k a, nth_error l k = Some a ->
    exists host,
      hostname h (url a) = Some host /\
      nth_error cs k
      = Some {| cardHref := url a; cardTitle := title a;
                cardBadge := index + k + 1;
                cardSummary := firstLine (gemini_summary a);
                cardHost := host |}.
Proof.
  revert index cs. induction l as [|a l IH]; intros index cs H; cbn in H.
  - injection H as <-. split; [reflexivity|]. intros [|k] b Hb; discriminate.
  - destruct (hostname h (url a)) as [host|] eqn:Hh; [|discriminate].
    destruct (articleCards h (S index) l) as [cs'|] eqn:Hcs; [|discriminate].
    injection H as <-. destruct (IH _ _ Hcs) as [Hlen Hnth].
    split; [cbn; rewrite Hlen; reflexivity|].
    intros [|k] b Hb; cbn in Hb.
    + injection Hb as <-. exists host. split; [exact Hh|]. cbn.
      rewrite Nat.add_0_r. reflexivity.
    + destruct (Hnth k b Hb) as [host' [Hh' Hk]]. exists host'.
      split; [exact Hh'|]. cbn. rewrite Hk.
      replace (S index + k + 1)%nat with (index + S k + 1)%nat by lia.
      reflexivity.
Qed.

(** The cards throw exactly when the URL of some article does not
    parse. *)
Lemma articleCards_throws (h : Host) (l : list Article) (index : nat) :
  articleCards h index l = None <->
  exists a, In a l /\ hostname h (url a) = None.
Proof.
  revert index. induction l as [|a l IH]; intros index; cbn.
  - split; [discriminate | intros [a [[] _]]].
  - destruct (hostname h (url a)) as [host|] eqn:Hh.
    + destruct (articleCards h (S index) l) as [cs|] eqn:Hcs.
      * split; [discriminate|]. intros [b [[<-|Hb] Hn]]; [congruence|].
        assert (Hnone : articleCards h (S index) l = None)
          by (apply IH; exists b; auto).
        congruence.
      * split; [|reflexivity]. intros _.
        destruct (proj1 (IH (S index)) Hcs) as [b [Hb Hn]].
        exists b. auto.
    + split; [|reflexivity]. intros _. exists a. auto.
Qed.

(** X8: rendering throws exactly when the view holds a result one of
    whose articles has a URL that [new URL] rejects: one such article
    among any number takes the whole page down, and a view without a
    result always renders. *)
Theorem render_throws_iff_bad_url (h : Host) (v : View) :
  App h v = None <->
  exists d a, data v = Some d /\ In a (articles d) /\
              hostname h (url a) = None.
Proof.
  unfold App, resultsSection. destruct (data v) as [d|].
  - destruct (articleCards h 0 (articles d)) as [cs|] eqn:Hcs.
    + split; [discriminate|]. intros [d' [a [Hd [Ha Hn]]]].
      injection Hd as <-.
      assert (Hnone : articleCards h 0 (articles d) = None)
        by (apply articleCards_throws; exists a; auto).
      congruence.
    + split; [|reflexivity]. intros _.
      destruct (proj1 (articleCards_throws h (articles d) 0) Hcs)
        as [a [Ha Hn]].
      exists d, a. auto.
  - split; [discriminate|]. intros [d [a [Hd _]]]. discriminate.
Qed.

(** X9: [s.split('\n')[0]] is the part of [s] before its first line
    feed: it holds no line feed, and [s] is it followed by nothing or by
    a text that starts with a line feed. *)
Theorem firstLine_prefix (s : jsstring) :
  ~ In 0x0A (firstLine s) /\
  exists rest, s = firstLine s ++ rest /\
               (rest = [] \/ hd_error rest = Some 0x0A).
Proof.
  induction s as [|c s [IHn [rest [IHs IHr]]]]; cbn [firstLine].
  - split; [intros []|]. exists []. split; [reflexivity | left; reflexivity].
  - destruct (c =? 0x0A) eqn:Hc.
    + split; [intros []|]. exists (c :: s). split; [reflexivity|].
      right. cbn. f_equal. lia.
    + split.
      * intros [Heq|Hin]; [lia | exact (IHn Hin)].
      * exists rest. split; [cbn; f_equal; exact IHs | exact IHr].
Qed.

(** X10: whenever [App] renders a view that holds a result, the number
    of sources it announces is the number of cards, and the card at
    position [k] is the one of the article at index [k]: its badge is
    [k + 1], its link and title are the article's, its host is the one
    [new URL] gives for the article's URL, and its summary is the
    article's summary up to its first line feed. *)
Theorem cards_follow_articles (h : Host) (v : View) (d : ApiResponse)
    (scr : Screen) :
  data v = Some d ->
  App h v = Some scr ->
  exists r,
    results scr = Some r /\
    sourcesAnalyzed r = List.length (cards r) /\
    List.length (cards r) = List.length (articles d) /\
    forall k a, nth_error (articles d) k = Some a ->
      exists card,
        nth_error (cards r) k = Some card /\
        cardBadge card = (k + 1)%nat /\
        cardHref card = url a /\
        cardTitle card = title a /\
        hostname h (url a) = Some (cardHost card) /\
        cardSummary card = firstLine (gemini_summary a).
Proof.
  intros Hd Happ.
  destruct (App_results h v d scr Hd Happ) as [r [Hr Hres]].
  exists r. split; [exact Hres|].
  unfold resultsSection in Hr.
  destruct (articleCards h 0 (articles d)) as [cs|] eqn:Hcs; [|discriminate].
  injection Hr as <-. cbn [sourcesAnalyzed cards].
  destruct (articleCards_shape h (articles d) 0 cs Hcs) as [Hlen Hnth].
  split; [symmetry; exact Hlen|]. split; [exact Hlen|].
  intros k a Ha. destruct (Hnth k a Ha) as [host [Hh Hk]].
  eexists. split; [exact Hk|]. cbn.
  repeat split; assumption.
Qed.

(** ** Calls on the page, whoever starts them *)

Lemma resume_tidy (p p' : Async unit) (s : Settlement) :
  tidy false false p -> resume p s = Some p' -> tidy false false p'.
Proof.
  intros Hp Hr.
  destruct p as [a|e|u k|ms k|input k|r k]; destruct s as [|o|];
    cbn in Hr; try discriminate; injection Hr as <-; cbn in Hp; auto.
Qed.

(** Knowing more about the view does not hurt. *)
Lemma tidy_weaken (p : Async unit) (a b a' b' : bool) :
  (a = true -> a' = true) -> (b = true -> b' = true) ->
  tidy a b p -> tidy a' b' p.
Proof.
  revert a b a' b'.
  induction p as [x|e|u k IH|ms k IH|input k IH|r k IH];
    intros a b a' b' Ha Hb;
    cbn; try (intros [H1 H2]; split; auto); auto.
  destruct u as [s|c|d|e|ph]; cbn; apply IH; auto.
Qed.

(** A tidy call runs to its next [await] and is tidy there, or ends with
    the loading flag off and the label empty. *)
Lemma advance_tidy (p : Async unit) (v : View) :
  tidy (negb (isLoading v)) (negb (truthy (loadingPhase v))) p ->
  match snd (advance p v) with
  | None => isLoading (snd (fst (advance p v))) = false /\
            loadingPhase (snd (fst (advance p v))) = []
  | Some t => tidy false false t
  end.
Proof.
  revert v.
  induction p as [x|e|u k IH|ms k IH|input k IH|r k IH]; intros v H;
    try exact H.
  - cbn in *. destruct H as [H1 H2]. destruct (isLoading v); [discriminate|].
    destruct (loadingPhase v); [auto | discriminate].
  - cbn in *. destruct H as [H1 H2]. destruct (isLoading v); [discriminate|].
    destruct (loadingPhase v); [auto | discriminate].
  - cbn [advance].
    assert (Hk : tidy (negb (isLoading (applyUpdate u v)))
                      (negb (truthy (loadingPhase (applyUpdate u v)))) k).
    { destruct u as [s|c|d|e|ph]; exact H. }
    specialize (IH _ Hk).
    destruct (advance k (applyUpdate u v)) as [[evs v'] t]. exact IH.
Qed.

Lemma handleSearch_tidy (h : Host) (q : jsstring) (a b : bool) :
  trim q <> [] -> tidy a b (handleSearch h q).
Proof.
  intros Hq. enter_search Hq.
  destruct (encodeURIComponent q) as [topic|]; cbn; [|auto].
  intros [r|e]; cbn; [|auto].
  destruct (ok r); cbn; [|auto].
  intros [d|e]; cbn; auto.
Qed.

(** Every call suspended on a page that was reached from the initial one,
    by whatever inputs, is tidy. *)
Lemma tasks_tidy (h : Host) (inputs : list Input) :
  Forall (tidy false false) (tasks (steps h initialWorld inputs)).
Proof.
  assert (Hwoken : forall p v,
             tidy false false p ->
             Forall (tidy false false) (optionToList (snd (advance p v)))).
  { intros p v Hp.
    pose proof (advance_tidy p v) as H.
    destruct (snd (advance p v)) as [t|]; [|apply Forall_nil].
    apply Forall_cons; [|apply Forall_nil]. apply H.
    revert Hp. apply tidy_weaken; discriminate. }
  assert (Hspawn : forall w, Forall (tidy false false) (tasks w) ->
                             Forall (tidy false false) (tasks (spawn h w))).
  { intros w Hw. unfold spawn, start.
    pose proof (Hwoken (handleSearch h (searchQuery (view w))) (view w)) as H.
    destruct (trim (searchQuery (view w))) as [|c t] eqn:Hq.
    - unfold handleSearch. rewrite Hq. cbn. rewrite app_nil_r. exact Hw.
    - destruct (advance (handleSearch h (searchQuery (view w))) (view w))
        as [[evs v'] t'].
      cbn [tasks]. apply Forall_app. split; [exact Hw|]. apply H.
      apply handleSearch_tidy. rewrite Hq. discriminate. }
  assert (Hstep : forall w i, Forall (tidy false false) (tasks w) ->
                              Forall (tidy false false) (tasks (step h w i))).
  { intros w [[value| |key]|n s] Hw; cbn [step].
    - exact Hw.
    - destruct (isLoading (view w)); [exact Hw | apply Hspawn; exact Hw].
    - destruct (strictEq key (js "Enter")); [apply Hspawn; exact Hw | exact Hw].
    - destruct (nth_error (tasks w) n) as [p|] eqn:Hn; [|exact Hw].
      destruct (resume p s) as [p'|] eqn:Hp; [|exact Hw].
      assert (Hp' : tidy false false p').
      { apply (resume_tidy p p' s); [|exact Hp].
        rewrite Forall_forall in Hw. apply Hw. apply (nth_error_In _ _ Hn). }
      pose proof (Hwoken p' (view w) Hp') as H.
      destruct (advance p' (view w)) as [[evs v'] t]. cbn [tasks].
      apply Forall_app. split.
      + rewrite Forall_forall in *. intros x Hx. apply Hw.
        rewrite <- (firstn_skipn n (tasks w)). apply in_or_app. left. exact Hx.
      + apply Forall_app. split; [exact H|].
        rewrite Forall_forall in *. intros x Hx. apply Hw.
        rewrite <- (firstn_skipn (S n) (tasks w)). apply in_or_app. right.
        exact Hx. }
  assert (H : forall w, Forall (tidy false false) (tasks w) ->
                        Forall (tidy false false) (tasks (steps h w inputs))).
  { induction inputs as [|i l IH]; intros w Hw; [exact Hw|].
    cbn [steps fold_left]. apply IH. apply Hstep. exact Hw. }
  apply H. apply Forall_nil.
Qed.

(** X11: on every page reached from the initial one, by whatever typing,
    clicks, Enters and settlements, and however many calls overlap: when a
    settlement ends a call (one suspended call less), the view right after
    has [isLoading] false and the label empty, whether or not other calls
    are still in flight. *)
Theorem ending_call_clears_loading (h : Host) (inputs : list Input)
    (n : nat) (s : Settlement) :
  let w := steps h initialWorld inputs in
  let w' := step h w (Settle n s) in
  (List.length (tasks w') < List.length (tasks w))%nat ->
  isLoading (view w') = false /\ loadingPhase (view w') = [].
Proof.
  intros w w'. subst w'. pose proof (tasks_tidy h inputs) as Hw. fold w in Hw.
  cbn [step].
  destruct (nth_error (tasks w) n) as [p|] eqn:Hn; [|lia].
  destruct (resume p s) as [p'|] eqn:Hp; [|lia].
  assert (Hp' : tidy false false p').
  { apply (resume_tidy p p' s); [|exact Hp].
    rewrite Forall_forall in Hw. apply Hw. apply (nth_error_In _ _ Hn). }
  pose proof (advance_tidy p' (view w)) as H.
  destruct (advance p' (view w)) as [[evs v'] t]. cbn [tasks view fst snd] in *.
  destruct t as [t|].
  - intros Hlen. exfalso. revert Hlen.
    rewrite !length_app, length_firstn, length_skipn. cbn.
    assert (n < List.length (tasks w))%nat
      by (apply nth_error_Some; congruence).
    lia.
  - intros _. apply H. revert Hp'. apply tidy_weaken; discriminate.
Qed.

Lemma fold_step (h : Host) (i : Input) (l : list Input) (w : World) :
  fold_left (step h) (i :: l) w = fold_left (step h) l (step h w i).
Proof. reflexivity. Qed.

Lemma step_enter (h : Host) (w : World) :
  step h w (Ui (KeyPress (js "Enter")))
  = start (handleSearch h (searchQuery (view w))) w.
Proof. reflexivity. Qed.

(** Take the next input of a schedule: an Enter starts the call [E1] or
    [E2] says [handleSearch] is, and the page is evaluated. *)
Ltac next_input h E1 E2 :=
  rewrite fold_step;
  try (rewrite step_enter; cbn [view searchQuery]; rewrite ?E1, ?E2);
  match goal with
  | |- context [fold_left (step h) ?l ?w] =>
      let w' := eval vm_compute in w in
      replace w with w' by (vm_compute; reflexivity)
  end.

(** X12: two searches overlap, the second typed and started with Enter
    while the first is loading, and the first is answered last. Each call
    requests the query that was in the field when it started, and the page
    ends with the body of the first call in [data] while the field holds
    the second query: the response that settles last wins. *)
Theorem stale_response_overwrites (h : Host) (q1 q2 t1 t2 : jsstring)
    (d1 d2 : option ApiResponse) :
  trim q1 <> [] -> trim q2 <> [] ->
  encodeURIComponent q1 = Some t1 ->
  encodeURIComponent q2 = Some t2 ->
  let w := steps h initialWorld
             [ Ui (Change q1); Ui (KeyPress (js "Enter"));
               Ui (Change q2); Ui (KeyPress (js "Enter"));
               Settle 0 TimerFired; Settle 0 TimerFired;
               Settle 1 TimerFired; Settle 1 TimerFired;
               Settle 1 (FetchSettled (Fulfilled (okResponse d2)));
               Settle 1 BodySettled;
               Settle 0 (FetchSettled (Fulfilled (okResponse d1)));
               Settle 0 BodySettled ] in
  tasks w = [] /\
  view w = {| searchQuery := q2; isLoading := false; data := d1;
              error := None; loadingPhase := [] |} /\
  filter isRequest (map fst (log w))
  = [Requested GET (scrapeUrl t1); Requested GET (scrapeUrl t2)].
Proof.
  intros Hq1 Hq2 He1 He2 w. subst w.
  pose proof (eq_refl (handleSearch h q1)) as E1.
  unfold handleSearch at 2 in E1.
  rewrite (truthy_trim q1 Hq1) in E1. cbn [negb] in E1.
  unfold searchBody, encodeTopic in E1. rewrite He1 in E1. cbn in E1.
  pose proof (eq_refl (handleSearch h q2)) as E2.
  unfold handleSearch at 2 in E2.
  rewrite (truthy_trim q2 Hq2) in E2. cbn [negb] in E2.
  unfold searchBody, encodeTopic in E2. rewrite He2 in E2. cbn in E2.
  unfold steps. do 12 next_input h E1 E2.
  cbn [fold_left tasks view log]. repeat split.
Qed.

(** ** Calls on the page, without Enter *)

(** A call that will not set both runs to its next [await] without ever
    having both set. *)
Lemma advance_sole (p : Async unit) (v : View) :
  exclusive v = true ->
  soleFrom v p ->
  allExclusive (fst (fst (advance p v))) = true /\
  exclusive (snd (fst (advance p v))) = true /\
  match snd (advance p v) with
  | Some t => soleFrom (snd (fst (advance p v))) t
  | None => True
  end.
Proof.
  unfold soleFrom, allExclusive.
  revert v. induction p as [x|e|u k IH|ms k IH|input k IH|r k IH]; intros v Hv H;
    try (cbn [advance fst snd forallb]; rewrite ?Hv; auto; fail).
  cbn [advance].
  assert (Hk : exclusive (applyUpdate u v) = true /\
               sole (isSome (data (applyUpdate u v)))
                    (isSome (error (applyUpdate u v))) k).
  { unfold exclusive in *.
    destruct u as [s|c|d|e|ph]; cbn in H |- *; try (split; assumption).
    - destruct H as [H1 H2]. split; [|exact H2].
      destruct d; [|reflexivity]. destruct (error v); [discriminate|reflexivity].
    - destruct H as [H1 H2]. split; [|exact H2].
      destruct (data v); [|reflexivity]. destruct e; [discriminate|reflexivity]. }
  destruct Hk as [Hv' Hk]. specialize (IH _ Hv' Hk).
  destruct (advance k (applyUpdate u v)) as [[evs v'] t].
  cbn [fst snd forallb] in *. rewrite Hv'. exact IH.
Qed.

(** [handleSearch] clears both before it sets one. *)
Lemma handleSearch_sole (h : Host) (q : jsstring) (d e : bool) :
  sole d e (handleSearch h q).
Proof.
  unfold handleSearch. destruct (truthy (trim q)); cbn [negb]; [|exact I].
  unfold searchBody, encodeTopic.
  destruct (encodeURIComponent q) as [topic|]; cbn.
  - repeat split. intros [r|x]; cbn; [|auto].
    destruct (ok r); cbn; [|auto].
    intros [y|x]; cbn; [|auto]. rewrite andb_false_r. auto.
  - auto.
Qed.

Lemma unmixed_woken (w : World) (p : Async unit) :
  allExclusive (log w) = true ->
  exclusive (view w) = true ->
  soleFrom (view w) p ->
  unmixed (let '(evs, v', t) := advance p (view w) in
           {| view := v'; tasks := optionToList t; log := log w ++ evs |}).
Proof.
  intros Hl Hv Hp.
  destruct (advance_sole p (view w) Hv Hp) as [Hl' [Hv' Ht]].
  destruct (advance p (view w)) as [[evs v'] t]. cbn [fst snd] in *.
  unfold unmixed, allExclusive in *. cbn [log view tasks].
  rewrite forallb_app, Hl, Hl'. split; [reflexivity|]. split; [exact Hv'|].
  intros t0 Ht0. destruct t as [t|]; [|discriminate].
  injection Ht0 as <-. exact Ht.
Qed.

Lemma unmixed_step (h : Host) (w : World) (i : Input) :
  pressesEnter i = false -> calm w -> unmixed w -> unmixed (step h w i).
Proof.
  intros Hi Hc [Hl [Hv Ht]]. destruct i as [[value| |key]|n s]; cbn [step].
  - unfold unmixed, allExclusive in *. cbn [log view tasks].
    rewrite forallb_app, Hl. cbn. unfold exclusive in *. cbn. rewrite Hv.
    repeat split. exact Ht.
  - destruct (isLoading (view w)) eqn:Hload; [repeat split; assumption|].
    assert (Hts : tasks w = []).
    { destruct Hc as [_ [_ Hc]].
      destruct (tasks w) as [|t [|t' ts]]; [reflexivity| |contradiction].
      destruct Hc as [Hc _]. congruence. }
    unfold spawn, start. rewrite Hts. cbn [app].
    apply unmixed_woken; [assumption|assumption|]. apply handleSearch_sole.
  - change (strictEq key (js "Enter") = false) in Hi. rewrite Hi.
    repeat split; assumption.
  - destruct (nth_error (tasks w) n) as [p|] eqn:Hn;
      [|repeat split; assumption].
    destruct (resume p s) as [p'|] eqn:Hp; [|repeat split; assumption].
    destruct Hc as [_ [_ Hc]].
    destruct (tasks w) as [|t [|t' ts]] eqn:Hts;
      [destruct n; discriminate| |contradiction].
    destruct n as [|n]; [|destruct n; discriminate].
    cbn in Hn. injection Hn as ->.
    cbn [firstn skipn app].
    assert (Hp' : soleFrom (view w) p').
    { specialize (Ht p eq_refl). unfold soleFrom in *.
      destruct p as [a|e|u k|ms k|input k|r k]; destruct s as [|o|];
        cbn in Hp; try discriminate; injection Hp as <-; cbn in Ht; auto. }
    pose proof (unmixed_woken w p' Hl Hv Hp') as Hw.
    destruct (advance p' (view w)) as [[evs v'] t'].
    rewrite app_nil_r. exact Hw.
Qed.

(** X13: as long as Enter is not pressed in the text field, whatever is
    typed, however often the button is clicked and in whatever order the
    promises settle, [data] and [error] are never both set: not in any
    view the page went through, and not in the view it is in. *)
Theorem without_enter_never_both (h : Host) (inputs : list Input) :
  existsb pressesEnter inputs = false ->
  let w := steps h initialWorld inputs in
  forallb (fun ev_view => exclusive (snd ev_view)) (log w) = true /\
  exclusive (view w) = true.
Proof.
  assert (H : forall w, calm w -> unmixed w ->
                        existsb pressesEnter inputs = false ->
                        calm (steps h w inputs) /\ unmixed (steps h w inputs)).
  { induction inputs as [|i l IH]; intros w Hc Hu Hl; [split; assumption|].
    cbn in Hl. apply orb_false_elim in Hl. destruct Hl as [Hi Hl].
    cbn [steps fold_left]. apply IH; [| |exact Hl].
    - apply calm_step; assumption.
    - apply unmixed_step; assumption. }
  intros Hl w. subst w.
  destruct (H initialWorld) as [_ [Ha [Hb _]]]; [| |exact Hl|].
  - unfold calm. cbn. auto.
  - unfold unmixed. cbn. repeat split. intros t Ht. discriminate.
  - split; assumption.
Qed.

(** ** The further properties at sample inputs *)


Lemma request_url_is_safe_witness :
  forallb isUnit (js "a&b=c#d") = true /\
  Forall (fun ev =>
            match ev with
            | Requested _ input =>
                exists topic,
                  input = js "/api/scrape?topic=" ++ topic /\
                  forallb uriSafe topic = true
            | _ => True
            end)
         (events (run (offline (js "Failed to fetch"))
                      (handleSearch sampleHost (js "a&b=c#d")) initialView)).
Proof.
  split; [reflexivity|].
  apply (request_url_is_safe sampleHost (js "a&b=c#d")). reflexivity.
Defined.

Lemma plain_query_sent_verbatim_witness :
  js "rocq" <> [] /\
  forallb uriUnreserved (js "rocq") = true /\
  requests (run (offline (js "Failed to fetch"))
                (handleSearch sampleHost (js "rocq")) initialView)
  = [Requested GET (js "/api/scrape?topic=" ++ js "rocq")].
Proof.
  assert (Hne : js "rocq" <> []) by discriminate.
  split; [exact Hne|]. split; [reflexivity|].
  apply (plain_query_sent_verbatim sampleHost (js "rocq")
           (offline (js "Failed to fetch")) initialView Hne).
  reflexivity.
Defined.

Lemma request_waits_for_both_timers_witness :
  trim (js "a") <> [] /\
  delayBeforeRequest
    (events (run (offline (js "Failed to fetch"))
                 (handleSearch sampleHost (js "a")) initialView))
  = Some 3500.
Proof.
  assert (Hq : trim (js "a") <> []) by discriminate.
  split; [exact Hq|].
  apply (request_waits_for_both_timers sampleHost (js "a")
           (offline (js "Failed to fetch")) initialView Hq).
Defined.

Lemma waiting_screen_witness :
  trim (js "a") <> [] /\
  Forall (fun ev_view =>
            isAwait (fst ev_view) = true ->
            In (loadingPhase (snd ev_view))
               [phaseSearching; phaseScraping; phaseAnalyzing] /\
            App sampleHost (snd ev_view)
            = Some (waitingScreen (searchQuery initialView)
                                  (loadingPhase (snd ev_view))))
         (trace (run (offline (js "Failed to fetch"))
                     (handleSearch sampleHost (js "a")) initialView)).
Proof.
  assert (Hq : trim (js "a") <> []) by discriminate.
  split; [exact Hq|].
  apply (waiting_screen sampleHost (js "a")
           (offline (js "Failed to fetch")) initialView Hq).
Defined.

Lemma resting_screen_witness :
  trim (js "a") <> [] /\
  exists m,
    error (final (run (offline (js "Failed to fetch"))
                      (handleSearch sampleHost (js "a")) initialView))
    = Some m /\
    App sampleHost
        (final (run (offline (js "Failed to fetch"))
                    (handleSearch sampleHost (js "a")) initialView))
    = Some (restingScreen (searchQuery initialView)
              (if truthy m then Some m else None) None).
Proof.
  assert (Hq : trim (js "a") <> []) by discriminate.
  split; [exact Hq|].
  apply (resting_screen sampleHost (js "a")
           (offline (js "Failed to fetch")) initialView Hq).
Defined.

Lemma cards_follow_articles_witness :
  let v := applyUpdate (SetData (Some sampleReport)) initialView in
  data v = Some sampleReport /\
  exists scr,
    App sampleHost v = Some scr /\
    exists r,
      results scr = Some r /\
      sourcesAnalyzed r = List.length (cards r) /\
      List.length (cards r) = 1%nat.
Proof.
  cbv zeta. split; [reflexivity|].
  eexists. split; [reflexivity|].
  destruct (cards_follow_articles sampleHost
              (applyUpdate (SetData (Some sampleReport)) initialView)
              sampleReport _ eq_refl eq_refl)
    as [r [Hr [Hn [Hlen _]]]].
  exists r. split; [exact Hr|]. split; [exact Hn | exact Hlen].
Defined.

Lemma ending_call_clears_loading_witness :
  let inputs := [ Ui (Change (js "a")); Ui (KeyPress (js "Enter"));
                  Ui (KeyPress (js "Enter"));
                  Settle 0 TimerFired; Settle 0 TimerFired ] in
  let w := steps sampleHost initialWorld inputs in
  let w' := step sampleHost w
              (Settle 0 (FetchSettled (Rejected (JsError (js "Failed to fetch"))))) in
  (List.length (tasks w') < List.length (tasks w))%nat /\
  List.length (tasks w') = 1%nat /\
  isLoading (view w') = false /\ loadingPhase (view w') = [].
Proof.
  cbv zeta.
  assert (Hlen :
    (List.length
       (tasks (step sampleHost
                 (steps sampleHost initialWorld
                    [ Ui (Change (js "a")); Ui (KeyPress (js "Enter"));
                      Ui (KeyPress (js "Enter"));
                      Settle 0 TimerFired; Settle 0 TimerFired ])
                 (Settle 0 (FetchSettled
                              (Rejected (JsError (js "Failed to fetch")))))))
     < List.length
         (tasks (steps sampleHost initialWorld
                   [ Ui (Change (js "a")); Ui (KeyPress (js "Enter"));
                     Ui (KeyPress (js "Enter"));
                     Settle 0 TimerFired; Settle 0 TimerFired ])))%nat).
  { vm_compute. reflexivity. }
  split; [exact Hlen|]. split; [reflexivity|].
  apply (ending_call_clears_loading sampleHost
           [ Ui (Change (js "a")); Ui (KeyPress (js "Enter"));
             Ui (KeyPress (js "Enter"));
             Settle 0 TimerFired; Settle 0 TimerFired ]
           0 (FetchSettled (Rejected (JsError (js "Failed to fetch"))))
           Hlen).
Defined.

Lemma stale_response_overwrites_witness :
  trim (js "a") <> [] /\ trim (js "b") <> [] /\
  encodeURIComponent (js "a") = Some (js "a") /\
  encodeURIComponent (js "b") = Some (js "b") /\
  view (steps sampleHost initialWorld
          [ Ui (Change (js "a")); Ui (KeyPress (js "Enter"));
            Ui (Change (js "b")); Ui (KeyPress (js "Enter"));
            Settle 0 TimerFired; Settle 0 TimerFired;
            Settle 1 TimerFired; Settle 1 TimerFired;
            Settle 1 (FetchSettled (Fulfilled (okResponse (Some sampleReport))));
            Settle 1 BodySettled;
            Settle 0 (FetchSettled (Fulfilled (okResponse (Some sampleData))));
            Settle 0 BodySettled ])
  = {| searchQuery := js "b"; isLoading := false; data := Some sampleData;
       error := None; loadingPhase := [] |}.
Proof.
  assert (Ha : trim (js "a") <> []) by discriminate.
  assert (Hb : trim (js "b") <> []) by discriminate.
  split; [exact Ha|]. split; [exact Hb|].
  split; [reflexivity|]. split; [reflexivity|].
  apply (stale_response_overwrites sampleHost (js "a") (js "b")
           (js "a") (js "b") (Some sampleData) (Some sampleReport)
           Ha Hb eq_refl eq_refl).
Defined.

Lemma without_enter_never_both_witness :
  let inputs := [ Ui (Change (js "a")); Ui Click; Ui Click;
                  Settle 0 TimerFired; Settle 0 TimerFired;
                  Settle 0 (FetchSettled (Rejected NotAnError));
                  Ui Click ] in
  existsb pressesEnter inputs = false /\
  exclusive (view (steps sampleHost initialWorld inputs)) = true.
Proof.
  cbv zeta. split; [reflexivity|].
  apply (without_enter_never_both sampleHost
           [ Ui (Change (js "a")); Ui Click; Ui Click;
             Settle 0 TimerFired; Settle 0 TimerFired;
             Settle 0 (FetchSettled (Rejected NotAnError));
             Ui Click ]).
  reflexivity.
Defined.

Lemma button_never_starts_second_call_witness :
  let inputs := [ Ui (Change (js "a")); Ui Click; Ui Click;
                  Ui (KeyPress (js "a")); Ui Click ] in
  existsb pressesEnter inputs = false /\
  reloads initialView (log (steps sampleHost initialWorld inputs)) = 0%nat /\
  (List.length (tasks (steps sampleHost initialWorld inputs)) <= 1)%nat.
Proof.
  cbv zeta. split; [reflexivity|].
  destruct (button_never_starts_second_call sampleHost
              [ Ui (Change (js "a")); Ui Click; Ui Click;
                Ui (KeyPress (js "a")); Ui Click ] eq_refl)
    as [Hr [Hl _]].
  split; [exact Hr | exact Hl].
Defined.

Lemma sequential_call_keeps_exclusive_witness :
  let w := step sampleHost initialWorld (Ui (Change (js "a"))) in
  tasks w = [] /\
  exclusive (view w) = true /\
  exclusive
    (view (steps sampleHost (spawn sampleHost w)
             (schedule (answering (okResponse (Some sampleData)))
                       (handleSearch sampleHost (js "a")))))
  = true.
Proof.
  cbv zeta. split; [reflexivity|]. split; [reflexivity|].
  apply (sequential_call_keeps_exclusive sampleHost
           (answering (okResponse (Some sampleData)))
           (step sampleHost initialWorld (Ui (Change (js "a"))))
           eq_refl eq_refl).
Defined.

Lemma render_throws_iff_bad_url_witness :
  let v := applyUpdate (SetData (Some sampleReport)) initialView in
  (exists d a, data v = Some d /\ In a (articles d) /\
               hostname strictHost (url a) = None) /\
  App strictHost v = None.
Proof.
  cbv zeta.
  assert (Hbad : exists d a,
             data (applyUpdate (SetData (Some sampleReport)) initialView)
             = Some d /\
             In a (articles d) /\ hostname strictHost (url a) = None).
  { exists sampleReport, sampleArticle.
    split; [reflexivity|]. split; [left; reflexivity | reflexivity]. }
  split; [exact Hbad|].
  apply (proj2 (render_throws_iff_bad_url strictHost
                  (applyUpdate (SetData (Some sampleReport)) initialView))).
  exact Hbad.
Defined.
